(** * Shelley bridge: session table, backend adapters, bridge service and
      the caller-side client

    A shallow embedding of the TypeScript bridge (session-manager.ts,
    claude-adapter.ts, codex-adapter.ts, the two index.ts servers) and of the
    Go client (llm/claudecode), followed by the properties of the
    specification that these functions decide.

    Conventions of the embedding.
    - A JavaScript [Map<string, V>] is a [gmap string V]; the results proved
      here do not depend on the iteration order of the map.
    - [Date.now()] is an explicit argument of every function that reads the
      clock; timestamps and token counts are integers ([Z]).
    - A value of type [string | undefined] is an [option string]; the
      JavaScript truthiness test on it is [truthy].
    - Exceptions are explicit: a computation finishes with a [Completion],
      either [Normal] or [Throw], and [try]/[catch] is a function on them.
    - The backends are opaque: the adapters receive them as functions from
      the invocation to what the backend did. *)

From Stdlib Require Import ZArith String List Lia.
From stdpp Require Import base option gmap strings list fin_maps.

Local Open Scope Z_scope.
Local Open Scope string_scope.

(** ** JavaScript values of type [string | undefined] *)

Module JS.

(** [!!v] for [v : string | undefined]: the empty string and [undefined]
    are falsy. *)
Definition truthy (v : option string) : bool :=
  match v with
  | Some s => negb (String.eqb s "")
  | None => false
  end.

(** [!!s] for a string. *)
Definition nonempty (s : string) : bool := negb (String.eqb s "").

(** [a || b] where [b] is a string: [a] when truthy, else [b]. *)
Definition or_else (a : option string) (b : string) : string :=
  match a with
  | Some s => if nonempty s then s else b
  | None => b
  end.

(** [a || b] on strings. *)
Definition or_str (a b : string) : string := if nonempty a then a else b.

(** [v === s] for [v : string | undefined] and a string literal [s]. *)
Definition is_str (v : option string) (s : string) : bool :=
  match v with
  | Some x => String.eqb x s
  | None => false
  end.

End JS.

(** ** types.ts *)

Module Types.

(** [ChatRequest], as the adapters receive it once the service has
    validated the body: [model?: string] is optional. *)
Record ChatRequest := {
  conversation_id : string;
  message : string;
  working_dir : string;
  model : option string
}.

Record Usage := { input_tokens : Z; output_tokens : Z }.

(** [ChatResponse]; [compacted?: boolean] is an optional key. *)
Record ChatResponse := {
  result : string;
  session_id : string;
  usage : Usage;
  is_error : bool;
  compacted : option bool
}.

Record SessionInfo := { sessionId : string; lastActivity : Z }.

End Types.

(** ** session-manager.ts *)

Module SessionManager.
Import Types.

Abbreviation t := (gmap string SessionInfo).

Definition IDLE_TIMEOUT_MS : Z := 30 * 60 * 1000.

(** [get(conversationId)]: on a hit the entry's [lastActivity] is set to
    the clock and its [sessionId] returned; on a miss [undefined]. *)
Definition get (now : Z) (conversationId : string) (sessions : t)
  : option string * t :=
  match sessions !! conversationId with
  | Some info =>
      (Some (sessionId info),
       <[conversationId := {| sessionId := sessionId info;
                              lastActivity := now |}]> sessions)
  | None => (None, sessions)
  end.

Definition set (now : Z) (conversationId sessionId : string) (sessions : t)
  : t :=
  <[conversationId := {| sessionId := sessionId; lastActivity := now |}]>
    sessions.

(** [Map.prototype.delete] returns whether the key was present. *)
Definition delete (conversationId : string) (sessions : t) : bool * t :=
  (bool_decide (is_Some (sessions !! conversationId)),
   base.delete conversationId sessions).

Definition activeCount (sessions : t) : nat := size sessions.

(** The test of the loop of [cleanup]. *)
Definition idle (now : Z) (info : SessionInfo) : bool :=
  bool_decide (now - lastActivity info > IDLE_TIMEOUT_MS).

(** One iteration of the loop of [cleanup] on the entry [(id, info)]; the
    state is the map being swept and the counter [removed]. *)
Definition cleanup_step (now : Z) (id : string) (info : SessionInfo)
    (st : t * nat) : t * nat :=
  if idle now info then (base.delete id (fst st), S (snd st)) else st.

(** [cleanup()]: one pass over the entries of the map, deleting the idle
    ones from it and counting them. *)
Definition cleanup (now : Z) (sessions : t) : nat * t :=
  let st := map_fold (cleanup_step now) (sessions, 0%nat) sessions in
  (snd st, fst st).

(** Every handle stored in the table is non-empty. *)
Definition handles_nonempty (sessions : t) : Prop :=
  ∀ id info, sessions !! id = Some info → sessionId info ≠ "".

End SessionManager.

(** ** Exceptions and [try]/[catch] *)

Module Exn.

(** What a [throw] carries: an [Error] object with its [message], or any
    other value. *)
Inductive thrown :=
| ErrorObject (message : string)
| NonError.

(** [err instanceof Error ? err.message : fallback] *)
Definition message_or (fallback : string) (err : thrown) : string :=
  match err with
  | ErrorObject message => message
  | NonError => fallback
  end.

Inductive Completion (A : Type) :=
| Normal (a : A)
| Throw (e : thrown).
Arguments Normal {A} a.
Arguments Throw {A} e.

(** A statement sequence over the mutable state [S]. The state reached
    when an exception is thrown is kept: assignments made before the
    [throw] are visible in the [catch] block and after it. *)
Definition Exec (S A : Type) : Type := S → Completion A * S.

Definition ret {S A} (a : A) : Exec S A := λ s, (Normal a, s).

Definition bind {S A B} (c : Exec S A) (k : A → Exec S B) : Exec S B :=
  λ s, match c s with
       | (Normal a, s') => k a s'
       | (Throw e, s') => (Throw e, s')
       end.

Definition throw {S A} (e : thrown) : Exec S A := λ s, (Throw e, s).

Definition read {S} : Exec S S := λ s, (Normal s, s).

Definition modify {S} (f : S → S) : Exec S unit := λ s, (Normal tt, f s).

Definition try_catch {S A} (body : Exec S A) (handler : thrown → Exec S A)
  : Exec S A :=
  λ s, match body s with
       | (Normal a, s') => (Normal a, s')
       | (Throw e, s') => handler e s'
       end.

(** [for await (const x of stream) body]: the stream yields [items] and
    then either ends ([ending = None]) or throws. *)
Fixpoint for_await {S X} (items : list X) (ending : option thrown)
    (body : X → Exec S unit) : Exec S unit :=
  match items with
  | [] => match ending with
          | None => ret tt
          | Some e => throw e
          end
  | x :: rest => bind (body x) (λ _, for_await rest ending body)
  end.

End Exn.

Declare Scope exec_scope.
Delimit Scope exec_scope with exec.
Notation "'let!' x ':=' c1 'in' c2" := (Exn.bind c1 (λ x, c2))
  (at level 10, x name, c1 at level 100, c2 at level 200) : exec_scope.
Notation "c1 '>>>' c2" := (Exn.bind c1 (λ _, c2))
  (at level 100, c2 at level 200, right associativity) : exec_scope.

(** ** claude-adapter.ts *)

Module ClaudeAdapter.
Import Exn.

Definition ALLOWED_TOOLS : list string :=
  ["Bash"; "Read"; "Write"; "Edit"; "Glob"; "Grep"; "WebFetch"; "WebSearch"].

(** The values stored in [queryOptions : Record<string, unknown>]. *)
Inductive OptionValue :=
| OStr (s : string)
| OList (l : list string).

(** One call of the SDK's [query({ prompt, options })]. *)
Record QueryCall := {
  prompt : string;
  options : gmap string OptionValue
}.

(** The fields of a streamed SDK message that [chat] looks at. A field is
    [None] when the message does not carry it (for [m_result]: when the key
    is missing or its value is not a string). *)
Record SDKMessage := {
  m_type : string;
  m_subtype : option string;
  m_session_id : option string;
  m_result : option string;
  m_input_tokens : option Z;
  m_output_tokens : option Z
}.

(** What the backend did on one call: the messages the stream yielded, and
    whether it then ended or threw. A [query] that throws at once is
    [emitted = []] with a [failure]. *)
Record QueryRun := {
  emitted : list SDKMessage;
  failure : option thrown
}.

(** The [let] variables of [chat]. *)
Record Locals := {
  resultText : string;
  sessionId : string;
  isError : bool;
  inputTokens : Z;
  outputTokens : Z;
  compacted : bool
}.

Definition initial : Locals :=
  {| resultText := ""; sessionId := ""; isError := false;
     inputTokens := 0; outputTokens := 0; compacted := false |}.

Definition set_resultText (v : string) (l : Locals) : Locals :=
  {| resultText := v; sessionId := sessionId l; isError := isError l;
     inputTokens := inputTokens l; outputTokens := outputTokens l;
     compacted := compacted l |}.
Definition set_sessionId (v : string) (l : Locals) : Locals :=
  {| resultText := resultText l; sessionId := v; isError := isError l;
     inputTokens := inputTokens l; outputTokens := outputTokens l;
     compacted := compacted l |}.
Definition set_isError (v : bool) (l : Locals) : Locals :=
  {| resultText := resultText l; sessionId := sessionId l; isError := v;
     inputTokens := inputTokens l; outputTokens := outputTokens l;
     compacted := compacted l |}.
Definition set_inputTokens (v : Z) (l : Locals) : Locals :=
  {| resultText := resultText l; sessionId := sessionId l;
     isError := isError l; inputTokens := v;
     outputTokens := outputTokens l; compacted := compacted l |}.
Definition set_outputTokens (v : Z) (l : Locals) : Locals :=
  {| resultText := resultText l; sessionId := sessionId l;
     isError := isError l; inputTokens := inputTokens l;
     outputTokens := v; compacted := compacted l |}.
Definition set_compacted (v : bool) (l : Locals) : Locals :=
  {| resultText := resultText l; sessionId := sessionId l;
     isError := isError l; inputTokens := inputTokens l;
     outputTokens := outputTokens l; compacted := v |}.

(** The mutable state [chat] runs on: its locals, the adapter's session
    table, and the calls made to the SDK so far (most recent first). *)
Record Frame := {
  locals : Locals;
  sessions : gmap string Types.SessionInfo;
  queries : list QueryCall
}.

Definition on_locals (f : Locals → Locals) : Exec Frame unit :=
  modify (λ fr, {| locals := f (locals fr); sessions := sessions fr;
                   queries := queries fr |}).

Definition on_sessions
    (f : gmap string Types.SessionInfo → gmap string Types.SessionInfo)
  : Exec Frame unit :=
  modify (λ fr, {| locals := locals fr; sessions := f (sessions fr);
                   queries := queries fr |}).

(** Calling [query]: the call is recorded and the backend answers. *)
Definition query (backend : QueryCall → QueryRun) (call : QueryCall)
  : Exec Frame QueryRun :=
  λ fr, (Normal (backend call),
         {| locals := locals fr; sessions := sessions fr;
            queries := call :: queries fr |}).

(** The options object built at the top of the [try] block. There is no
    assignment to a [model] key. *)
Definition queryOptions (req : Types.ChatRequest)
    (existingSessionId : option string) : gmap string OptionValue :=
  let o0 : gmap string OptionValue :=
    <["permissionMode" := OStr "bypassPermissions"]>
      (<["allowedTools" := OList ALLOWED_TOOLS]> ∅) in
  let o1 := if JS.nonempty (Types.working_dir req)
            then <["cwd" := OStr (Types.working_dir req)]> o0 else o0 in
  match existingSessionId with
  | Some sid => if JS.nonempty sid then <["resume" := OStr sid]> o1 else o1
  | None => o1
  end.

(** The body of the [for await] loop, on one message. *)
Definition consume (message : SDKMessage) (l : Locals) : Locals :=
  let l1 :=
    if String.eqb (m_type message) "system"
       && JS.is_str (m_subtype message) "init"
       && JS.truthy (m_session_id message)
    then set_sessionId (JS.or_else (m_session_id message) "") l else l in
  let l2 :=
    if String.eqb (m_type message) "system"
       && JS.is_str (m_subtype message) "compact_boundary"
    then set_compacted true l1 else l1 in
  let l3 :=
    match m_result message with
    | Some r => set_resultText r l2
    | None => l2
    end in
  let l4 :=
    match m_input_tokens message with
    | Some n => set_inputTokens n l3
    | None => l3
    end in
  match m_output_tokens message with
  | Some n => set_outputTokens n l4
  | None => l4
  end.

(** The [try] block. *)
Definition try_block (t_store : Z) (backend : QueryCall → QueryRun)
    (req : Types.ChatRequest) (existingSessionId : option string)
  : Exec Frame unit :=
  (let! run := query backend
                 {| prompt := Types.message req;
                    options := queryOptions req existingSessionId |} in
   for_await (emitted run) (failure run) (λ m, on_locals (consume m)) >>>
   let! fr := read in
   if JS.nonempty (sessionId (locals fr))
   then on_sessions (SessionManager.set t_store (Types.conversation_id req)
                       (sessionId (locals fr)))
   else ret tt)%exec.

(** The [catch] block. *)
Definition catch_block (err : thrown) : Exec Frame unit :=
  (on_locals (set_isError true) >>>
   on_locals (set_resultText (message_or "Unknown error from Claude Code" err)))%exec.

(** The object literal of the [return] statement. *)
Definition response (existingSessionId : option string) (l : Locals)
  : Types.ChatResponse :=
  {| Types.result := resultText l;
     Types.session_id :=
       JS.or_str (sessionId l) (JS.or_else existingSessionId "");
     Types.usage := {| Types.input_tokens := inputTokens l;
                       Types.output_tokens := outputTokens l |};
     Types.is_error := isError l;
     Types.compacted := if compacted l then Some true else None |}.

(** [chat(req)], after the lookup of the existing session. *)
Definition chat_body (t_store : Z) (backend : QueryCall → QueryRun)
    (req : Types.ChatRequest) (existingSessionId : option string)
  : Exec Frame Types.ChatResponse :=
  (try_catch (try_block t_store backend req existingSessionId) catch_block >>>
   let! fr := read in
   ret (response existingSessionId (locals fr)))%exec.

(** The adapter's own state: its session table and the SDK calls made. *)
Record State := {
  table : gmap string Types.SessionInfo;
  calls : list QueryCall
}.

(** [chat(req)]. [t_lookup] is the clock when the table is read, [t_store]
    the clock when the new handle is written. *)
Definition chat (t_lookup t_store : Z) (backend : QueryCall → QueryRun)
    (req : Types.ChatRequest) (st : State)
  : Completion Types.ChatResponse * State :=
  let got := SessionManager.get t_lookup (Types.conversation_id req) (table st) in
  let out := chat_body t_store backend req (fst got)
               {| locals := initial; sessions := snd got; queries := calls st |} in
  (fst out, {| table := sessions (snd out); calls := queries (snd out) |}).

Definition deleteSession (conversationId : string) (st : State)
  : bool * State :=
  let d := SessionManager.delete conversationId (table st) in
  (fst d, {| table := snd d; calls := calls st |}).

End ClaudeAdapter.

(** ** codex-adapter.ts *)

Module CodexAdapter.
Import Exn.

(** How the thread is obtained: [codex.resumeThread(id)] or
    [codex.startThread({ workingDirectory })]. *)
Inductive ThreadOpen :=
| ResumeThread (id : string)
| StartThread (workingDirectory : string).

(** What the adapter asks of the SDK, in order (most recent first in the
    log): obtaining a thread, and running a turn on it. *)
Inductive SdkCall :=
| Open (how : ThreadOpen)
| Run (input : string).

(** The value [thread.run] resolves to. [thread_usage] is [None] when
    [turn.usage] is null. *)
Record Turn := {
  finalResponse : string;
  thread_usage : option Types.Usage
}.

(** A thread object: [run] either rejects or resolves to a turn, after
    which [thread.id] is a string or still null. *)
Record Thread := {
  run : string → thrown + (option string * Turn)
}.

Record Locals := {
  resultText : string;
  threadId : string;
  isError : bool;
  inputTokens : Z;
  outputTokens : Z
}.

Definition initial : Locals :=
  {| resultText := ""; threadId := ""; isError := false;
     inputTokens := 0; outputTokens := 0 |}.

Record Frame := {
  locals : Locals;
  sessions : gmap string Types.SessionInfo;
  sdk_calls : list SdkCall
}.

Definition on_locals (f : Locals → Locals) : Exec Frame unit :=
  modify (λ fr, {| locals := f (locals fr); sessions := sessions fr;
                   sdk_calls := sdk_calls fr |}).

Definition on_sessions
    (f : gmap string Types.SessionInfo → gmap string Types.SessionInfo)
  : Exec Frame unit :=
  modify (λ fr, {| locals := locals fr; sessions := f (sessions fr);
                   sdk_calls := sdk_calls fr |}).

Definition record_call (c : SdkCall) : Exec Frame unit :=
  modify (λ fr, {| locals := locals fr; sessions := sessions fr;
                   sdk_calls := c :: sdk_calls fr |}).

(** A call into the SDK that returns or throws. *)
Definition sdk {A} (c : SdkCall) (outcome : thrown + A) : Exec Frame A :=
  (record_call c >>>
   match outcome with
   | inl e => throw e
   | inr a => ret a
   end)%exec.

(** [existingThreadId ? resumeThread(existingThreadId)
                      : startThread({ workingDirectory: req.working_dir || process.cwd() })] *)
Definition thread_open (cwd : string) (req : Types.ChatRequest)
    (existingThreadId : option string) : ThreadOpen :=
  if JS.truthy existingThreadId
  then ResumeThread (JS.or_else existingThreadId "")
  else StartThread (JS.or_str (Types.working_dir req) cwd).

(** The assignments after [await thread.run(req.message)]. On integers
    [n || 0] is [n]. *)
Definition capture (id : option string) (turn : Turn) (l : Locals) : Locals :=
  {| resultText := JS.or_str (finalResponse turn) "";
     threadId := JS.or_else id "";
     isError := isError l;
     inputTokens := match thread_usage turn with
                    | Some u => Types.input_tokens u
                    | None => inputTokens l
                    end;
     outputTokens := match thread_usage turn with
                     | Some u => Types.output_tokens u
                     | None => outputTokens l
                     end |}.

(** The [try] block. *)
Definition try_block (t_store : Z) (cwd : string)
    (codex : ThreadOpen → thrown + Thread)
    (req : Types.ChatRequest) (existingThreadId : option string)
  : Exec Frame unit :=
  (let how := thread_open cwd req existingThreadId in
   let! thread := sdk (Open how) (codex how) in
   let! done := sdk (Run (Types.message req)) (run thread (Types.message req)) in
   on_locals (capture (fst done) (snd done)) >>>
   let! fr := read in
   if JS.nonempty (threadId (locals fr))
   then on_sessions (SessionManager.set t_store (Types.conversation_id req)
                       (threadId (locals fr)))
   else ret tt)%exec.

(** The [catch] block. *)
Definition catch_block (err : thrown) : Exec Frame unit :=
  on_locals (λ l,
    {| resultText := message_or "Unknown error from Codex" err;
       threadId := threadId l; isError := true;
       inputTokens := inputTokens l; outputTokens := outputTokens l |}).

(** The object literal of the [return] statement: it has no [compacted]
    key. *)
Definition response (existingThreadId : option string) (l : Locals)
  : Types.ChatResponse :=
  {| Types.result := resultText l;
     Types.session_id :=
       JS.or_str (threadId l) (JS.or_else existingThreadId "");
     Types.usage := {| Types.input_tokens := inputTokens l;
                       Types.output_tokens := outputTokens l |};
     Types.is_error := isError l;
     Types.compacted := None |}.

Definition chat_body (t_store : Z) (cwd : string)
    (codex : ThreadOpen → thrown + Thread)
    (req : Types.ChatRequest) (existingThreadId : option string)
  : Exec Frame Types.ChatResponse :=
  (try_catch (try_block t_store cwd codex req existingThreadId) catch_block >>>
   let! fr := read in
   ret (response existingThreadId (locals fr)))%exec.

Record State := {
  table : gmap string Types.SessionInfo;
  calls : list SdkCall
}.

(** [chat(req)]. [cwd] is [process.cwd()]. *)
Definition chat (t_lookup t_store : Z) (cwd : string)
    (codex : ThreadOpen → thrown + Thread)
    (req : Types.ChatRequest) (st : State)
  : Completion Types.ChatResponse * State :=
  let got := SessionManager.get t_lookup (Types.conversation_id req) (table st) in
  let out := chat_body t_store cwd codex req (fst got)
               {| locals := initial; sessions := snd got; sdk_calls := calls st |} in
  (fst out, {| table := sessions (snd out); calls := sdk_calls (snd out) |}).

Definition deleteSession (conversationId : string) (st : State)
  : bool * State :=
  let d := SessionManager.delete conversationId (table st) in
  (fst d, {| table := snd d; calls := calls st |}).

End CodexAdapter.

(** ** index.ts: the bridge service *)

Module Bridge.
Import Exn.

(** [req.body as ChatRequest] before validation: any field may be
    missing. *)
Record Body := {
  b_conversation_id : option string;
  b_message : option string;
  b_working_dir : option string;
  b_model : option string
}.

(** [res.status(code).json(payload)]; [res.json] alone answers 200. *)
Record Reply := {
  status : Z;
  payload : Types.ChatResponse
}.

(** What the process sees of the outside: [process.cwd()], the clock at
    the two places a chat reads it, and the two backends. *)
Record Env := {
  cwd : string;
  t_lookup : Z;
  t_store : Z;
  claude_sdk : ClaudeAdapter.QueryCall → ClaudeAdapter.QueryRun;
  codex_sdk : CodexAdapter.ThreadOpen → thrown + CodexAdapter.Thread
}.

Definition bad_request : Reply :=
  {| status := 400;
     payload := {| Types.result := ""; Types.session_id := "";
                   Types.usage := {| Types.input_tokens := 0;
                                     Types.output_tokens := 0 |};
                   Types.is_error := true; Types.compacted := None |} |}.

Definition internal_error : Reply :=
  {| status := 500;
     payload := {| Types.result := "Internal bridge error";
                   Types.session_id := "";
                   Types.usage := {| Types.input_tokens := 0;
                                     Types.output_tokens := 0 |};
                   Types.is_error := true; Types.compacted := None |} |}.

(** [!body.conversation_id || !body.message] *)
Definition invalid (body : Body) : bool :=
  negb (JS.truthy (b_conversation_id body)) || negb (JS.truthy (b_message body)).

(** The body as the adapter receives it, after
    [if (!body.working_dir) body.working_dir = process.cwd()]. *)
Definition validated (env : Env) (body : Body) : Types.ChatRequest :=
  {| Types.conversation_id := JS.or_else (b_conversation_id body) "";
     Types.message := JS.or_else (b_message body) "";
     Types.working_dir := JS.or_else (b_working_dir body) (cwd env);
     Types.model := b_model body |}.

(** [try { res.json(await adapter.chat(body)) } catch { res.status(500)... }] *)
Definition answer (c : Completion Types.ChatResponse) : Reply :=
  match c with
  | Normal response => {| status := 200; payload := response |}
  | Throw _ => internal_error
  end.

(** [isCodexModel(model?)] *)
Definition isCodexModel (model : option string) : bool :=
  JS.is_str model "codex"
  || (JS.truthy model && String.prefix "codex-" (JS.or_else model "")).

Inductive Backend := ClaudeCode | Codex.

(** The server with the Claude adapter only. [chats] lists the requests
    handed to the adapter, most recent first. *)
Module Single.

Record Server := {
  claudeAdapter : ClaudeAdapter.State;
  chats : list Types.ChatRequest
}.

Definition post_chat (env : Env) (body : Body) (srv : Server)
  : Reply * Server :=
  if invalid body then (bad_request, srv)
  else
    let req := validated env body in
    let out := ClaudeAdapter.chat (t_lookup env) (t_store env)
                 (claude_sdk env) req (claudeAdapter srv) in
    (answer (fst out),
     {| claudeAdapter := snd out; chats := req :: chats srv |}).

Definition delete_session (conversationId : string) (srv : Server)
  : bool * Server :=
  let d := ClaudeAdapter.deleteSession conversationId (claudeAdapter srv) in
  (fst d, {| claudeAdapter := snd d; chats := chats srv |}).

Definition health (srv : Server) : nat :=
  SessionManager.activeCount (ClaudeAdapter.table (claudeAdapter srv)).

End Single.

(** The server with both adapters. *)
Module Multi.

Record Server := {
  claudeAdapter : ClaudeAdapter.State;
  codexAdapter : CodexAdapter.State;
  chats : list (Backend * Types.ChatRequest)
}.

Definition post_chat (env : Env) (body : Body) (srv : Server)
  : Reply * Server :=
  if invalid body then (bad_request, srv)
  else
    let req := validated env body in
    if isCodexModel (Types.model req)
    then
      let out := CodexAdapter.chat (t_lookup env) (t_store env) (cwd env)
                   (codex_sdk env) req (codexAdapter srv) in
      (answer (fst out),
       {| claudeAdapter := claudeAdapter srv; codexAdapter := snd out;
          chats := (Codex, req) :: chats srv |})
    else
      let out := ClaudeAdapter.chat (t_lookup env) (t_store env)
                   (claude_sdk env) req (claudeAdapter srv) in
      (answer (fst out),
       {| claudeAdapter := snd out; codexAdapter := codexAdapter srv;
          chats := (ClaudeCode, req) :: chats srv |}).

Definition delete_session (conversationId : string) (srv : Server)
  : bool * Server :=
  let d1 := ClaudeAdapter.deleteSession conversationId (claudeAdapter srv) in
  let d2 := CodexAdapter.deleteSession conversationId (codexAdapter srv) in
  (fst d1 || fst d2,
   {| claudeAdapter := snd d1; codexAdapter := snd d2; chats := chats srv |}).

Definition health (srv : Server) : nat :=
  (SessionManager.activeCount (ClaudeAdapter.table (claudeAdapter srv))
   + SessionManager.activeCount (CodexAdapter.table (codexAdapter srv)))%nat.

End Multi.

End Bridge.

(** ** llm/claudecode: the caller-side client (Go) *)

Module Claudecode.

(** Modelled from the spec: the declarations of package [llm] that the
    client uses are not part of the sources at hand (message roles, content
    types, and the message, request and response structs); the history is
    "ordered role-tagged content". *)
Inductive MessageRole := MessageRoleUser | MessageRoleAssistant.

(** Modelled from the spec: the content types of package [llm]; only
    [ContentTypeText] is named by the client. *)
Inductive ContentType :=
| ContentTypeText
| ContentTypeThinking
| ContentTypeToolUse
| ContentTypeToolResult.

(** Modelled from the spec: the stop reasons of package [llm]; the client
    only ever produces [StopReasonEndTurn]. *)
Inductive StopReason := StopReasonEndTurn | StopReasonToolUse.

Record Content := { Type_ : ContentType; Text : string }.
Record Message := { Role : MessageRole; Contents : list Content }.
Record Request := { Messages : list Message }.

Record Usage := {
  InputTokens : Z;
  OutputTokens : Z;
  StartTime : Z;
  EndTime : Z
}.

Record Response := {
  RespRole : MessageRole;
  RespContent : list Content;
  RespStopReason : StopReason;
  RespUsage : Usage
}.

(** Modelled from the spec: [llmhttp.ConversationIDFromContext], the
    accessor of the ambient conversation id; a context is what it holds,
    the empty string when nothing was set. *)
Record Context := { ambientConversationID : string }.
Definition ConversationIDFromContext (ctx : Context) : string :=
  ambientConversationID ctx.

(** The [HTTPC] field, the HTTP client, is the [Net] that [Do] is run
    against. *)
Record Service := {
  BridgeURL : string;
  Model : string
}.

Record bridgeChatRequest := {
  ConversationID : string;
  Message_ : string;
  WorkingDir : string;
  ReqModel : string
}.

Record bridgeChatResponse := {
  Result : string;
  SessionID : string;
  UsageInputTokens : Z;
  UsageOutputTokens : Z;
  IsError : bool;
  Compacted : bool
}.

(** A 64-bit unsigned conversion. *)
Definition uint64 (z : Z) : Z := z mod 2 ^ 64.

Definition role_eqb (a b : MessageRole) : bool :=
  match a, b with
  | MessageRoleUser, MessageRoleUser => true
  | MessageRoleAssistant, MessageRoleAssistant => true
  | _, _ => false
  end.

Definition is_text (c : Content) : bool :=
  match Type_ c with
  | ContentTypeText => negb (String.eqb (Text c) "")
  | _ => false
  end.

(** The inner loop of [extractLastUserMessage]: the text of the first
    content that is a non-empty text, if there is one. *)
Fixpoint first_text (contents : list Content) : option string :=
  match contents with
  | [] => None
  | c :: rest => if is_text c then Some (Text c) else first_text rest
  end.

(** The outer loop, on the messages from the last one back to the
    first. *)
Fixpoint scan_back (newest_first : list Message) : string :=
  match newest_first with
  | [] => ""
  | msg :: older =>
      if role_eqb (Role msg) MessageRoleUser
      then match first_text (Contents msg) with
           | Some text => text
           | None => scan_back older
           end
      else scan_back older
  end.

Definition extractLastUserMessage (messages : list Message) : string :=
  scan_back (rev messages).

Definition TokenContextWindow (s : Service) : Z := 200000.

Definition MaxImageDimension (s : Service) : Z := 0.

(** One HTTP exchange as [Do] sees it. *)
Record HttpRequest := {
  url : string;
  sent : bridgeChatRequest
}.

Inductive HttpResult :=
| TransportError                         (* httpc.Do returned an error *)
| BodyUnreadable (code : Z)              (* io.ReadAll returned an error *)
| Received (code : Z) (raw : string).

(** The network and the libraries around it: whether
    [http.NewRequestWithContext] accepts the URL, what the round trip
    gives, what [json.Unmarshal] makes of a body, and the two readings of
    the clock. *)
Record Net := {
  request_ok : string → bool;
  round_trip : HttpRequest → HttpResult;
  unmarshal : string → option bridgeChatResponse;
  clock_start : Z;
  clock_end : Z
}.

Inductive DoError :=
| ErrNoUserMessage
| ErrCreateRequest
| ErrRequestFailed
| ErrReadResponse
| ErrStatus (code : Z) (raw : string)
| ErrUnmarshal
| ErrBridge (result : string).

(** The usage reported for a decoded wire response. *)
Definition reported_usage (s : Service) (net : Net)
    (bridgeResp : bridgeChatResponse) : Usage :=
  let inputTokens := UsageInputTokens bridgeResp in
  let outputTokens := UsageOutputTokens bridgeResp in
  let inputTokens :=
    if Compacted bridgeResp then uint64 (TokenContextWindow s) else inputTokens in
  let outputTokens := if Compacted bridgeResp then 0 else outputTokens in
  {| InputTokens := inputTokens; OutputTokens := outputTokens;
     StartTime := clock_start net; EndTime := clock_end net |}.

(** [Do(ctx, req)]: the result, and the HTTP requests that were sent.
    [json.Marshal] of a struct of strings does not fail. *)
Definition Do (s : Service) (net : Net) (ctx : Context) (req : Request)
  : (DoError + Response) * list HttpRequest :=
  let userMessage := extractLastUserMessage (Messages req) in
  if String.eqb userMessage "" then (inl ErrNoUserMessage, [])
  else
    let conversationID := ConversationIDFromContext ctx in
    let conversationID :=
      if String.eqb conversationID "" then "default" else conversationID in
    let bridgeReq :=
      {| ConversationID := conversationID; Message_ := userMessage;
         WorkingDir := ""; ReqModel := Model s |} in
    let url := BridgeURL s ++ "/chat" in
    if negb (request_ok net url) then (inl ErrCreateRequest, [])
    else
      let httpReq := {| url := url; sent := bridgeReq |} in
      match round_trip net httpReq with
      | TransportError => (inl ErrRequestFailed, [httpReq])
      | BodyUnreadable _ => (inl ErrReadResponse, [httpReq])
      | Received code raw =>
          if negb (Z.eqb code 200) then (inl (ErrStatus code raw), [httpReq])
          else
            match unmarshal net raw with
            | None => (inl ErrUnmarshal, [httpReq])
            | Some bridgeResp =>
                if IsError bridgeResp
                then (inl (ErrBridge (Result bridgeResp)), [httpReq])
                else
                  (inr {| RespRole := MessageRoleAssistant;
                          RespContent := [ {| Type_ := ContentTypeText;
                                              Text := Result bridgeResp |} ];
                          RespStopReason := StopReasonEndTurn;
                          RespUsage := reported_usage s net bridgeResp |},
                   [httpReq])
            end
      end.

End Claudecode.

(** ** The JSON wire between the client and the bridge *)

Module Wire.

(** The body of the client's POST as the bridge parses it. Every field of
    [bridgeChatRequest] is written, except [model], which is tagged
    [omitempty] and left out when empty. *)
Definition body_of (r : Claudecode.bridgeChatRequest) : Bridge.Body :=
  {| Bridge.b_conversation_id := Some (Claudecode.ConversationID r);
     Bridge.b_message := Some (Claudecode.Message_ r);
     Bridge.b_working_dir := Some (Claudecode.WorkingDir r);
     Bridge.b_model := if String.eqb (Claudecode.ReqModel r) "" then None
                       else Some (Claudecode.ReqModel r) |}.

Definition fits_uint64 (z : Z) : bool := Z.leb 0 z && Z.ltb z (2 ^ 64).

(** The bridge's JSON answer as the client decodes it: a token count that
    does not fit [uint64] is a decoding error, a missing [compacted] key
    leaves the field at [false]. *)
Definition response_of (r : Types.ChatResponse)
  : option Claudecode.bridgeChatResponse :=
  if fits_uint64 (Types.input_tokens (Types.usage r))
     && fits_uint64 (Types.output_tokens (Types.usage r))
  then Some {| Claudecode.Result := Types.result r;
               Claudecode.SessionID := Types.session_id r;
               Claudecode.UsageInputTokens := Types.input_tokens (Types.usage r);
               Claudecode.UsageOutputTokens := Types.output_tokens (Types.usage r);
               Claudecode.IsError := Types.is_error r;
               Claudecode.Compacted := match Types.compacted r with
                                       | Some b => b
                                       | None => false
                                       end |}
  else None.

End Wire.

(** ** Histories of a session table *)

Module History.

(** The calls a [SessionManager] receives, each with the clock reading it
    makes. *)
Inductive Op :=
| OpGet (now : Z) (id : string)
| OpSet (now : Z) (id handle : string)
| OpDelete (id : string)
| OpCleanup (now : Z).

Definition step (sessions : gmap string Types.SessionInfo) (op : Op)
  : gmap string Types.SessionInfo :=
  match op with
  | OpGet now id => snd (SessionManager.get now id sessions)
  | OpSet now id handle => SessionManager.set now id handle sessions
  | OpDelete id => snd (SessionManager.delete id sessions)
  | OpCleanup now => snd (SessionManager.cleanup now sessions)
  end.

(** The table after a history, starting from [new Map()]. *)
Definition run (ops : list Op) : gmap string Types.SessionInfo :=
  fold_left step ops ∅.

(** The time at which a call looks up or writes the entry of [id]. *)
Definition use_of (id : string) (op : Op) : option Z :=
  match op with
  | OpGet now id' => if String.eqb id id' then Some now else None
  | OpSet now id' _ => if String.eqb id id' then Some now else None
  | OpDelete _ => None
  | OpCleanup _ => None
  end.

(** The time of the last lookup or write of [id] in a history. *)
Definition last_use (id : string) (ops : list Op) : option Z :=
  last (omap (use_of id) ops).

End History.

(** ** The specification's words, for comparison with the code *)

Module Spec.

(** "The freshly captured handle if one was obtained before the failure,
    else the handle that was looked up at step 1, else empty." *)
Definition best_handle (fresh : string) (looked_up : option string) : string :=
  if JS.nonempty fresh then fresh
  else match looked_up with
       | Some h => h
       | None => ""
       end.

(** The handle a streamed message announces: an initialization-type event
    that carries a non-empty session identity. *)
Definition announced (m : ClaudeAdapter.SDKMessage) : option string :=
  if String.eqb (ClaudeAdapter.m_type m) "system"
     && JS.is_str (ClaudeAdapter.m_subtype m) "init"
     && JS.truthy (ClaudeAdapter.m_session_id m)
  then ClaudeAdapter.m_session_id m else None.

(** The handle captured from a stream: the one announced last, [""] when
    none was. *)
Definition captured_handle (stream : list ClaudeAdapter.SDKMessage) : string :=
  default "" (last (omap announced stream)).

(** "The most recent message authored by the human role." *)
Definition most_recent_user (messages : list Claudecode.Message)
  : option Claudecode.Message :=
  last (List.filter
          (λ m, Claudecode.role_eqb (Claudecode.Role m) Claudecode.MessageRoleUser)
          messages).

(** The text of a message: that of its first non-empty text content, [""]
    when it has none. *)
Definition text_of (m : Claudecode.Message) : string :=
  match List.find Claudecode.is_text (Claudecode.Contents m) with
  | Some c => Claudecode.Text c
  | None => ""
  end.

(** A message of the human role with a non-empty text content. *)
Definition user_text (m : Claudecode.Message) : bool :=
  Claudecode.role_eqb (Claudecode.Role m) Claudecode.MessageRoleUser
  && existsb Claudecode.is_text (Claudecode.Contents m).

(** The most recent message of the human role that has a non-empty text
    content. *)
Definition prompt_source (messages : list Claudecode.Message)
  : option Claudecode.Message :=
  last (List.filter user_text messages).

End Spec.

(** ** The adapters' locals in closed form *)

Module Closed.
Import Exn.

(** The locals after the loop. *)
Definition claude_locals (run : ClaudeAdapter.QueryRun) : ClaudeAdapter.Locals :=
  fold_left (λ l m, ClaudeAdapter.consume m l) (ClaudeAdapter.emitted run)
    ClaudeAdapter.initial.

(** The locals after the [catch] block of the Claude adapter. *)
Definition claude_caught (err : thrown) (l : ClaudeAdapter.Locals)
  : ClaudeAdapter.Locals :=
  ClaudeAdapter.set_resultText (message_or "Unknown error from Claude Code" err)
    (ClaudeAdapter.set_isError true l).

(** The locals after the [catch] block of the Codex adapter. *)
Definition codex_caught (err : thrown) : CodexAdapter.Locals :=
  {| CodexAdapter.resultText := message_or "Unknown error from Codex" err;
     CodexAdapter.threadId := ""; CodexAdapter.isError := true;
     CodexAdapter.inputTokens := 0; CodexAdapter.outputTokens := 0 |}.

(** The request [Do] builds once a prompt has been found. *)
Definition wire_request (s : Claudecode.Service) (ctx : Claudecode.Context)
    (req : Claudecode.Request) : Claudecode.HttpRequest :=
  {| Claudecode.url := Claudecode.BridgeURL s ++ "/chat";
     Claudecode.sent :=
       {| Claudecode.ConversationID :=
            if String.eqb (Claudecode.ConversationIDFromContext ctx) ""
            then "default" else Claudecode.ConversationIDFromContext ctx;
          Claudecode.Message_ :=
            Claudecode.extractLastUserMessage (Claudecode.Messages req);
          Claudecode.WorkingDir := "";
          Claudecode.ReqModel := Claudecode.Model s |} |}.

End Closed.

(** ** Concrete scenarios *)

Module Scenario.
Import Exn.

Definition request (id text : string) : Types.ChatRequest :=
  {| Types.conversation_id := id; Types.message := text;
     Types.working_dir := "/tmp"; Types.model := None |}.

Definition init_message (sid : string) : ClaudeAdapter.SDKMessage :=
  {| ClaudeAdapter.m_type := "system"; ClaudeAdapter.m_subtype := Some "init";
     ClaudeAdapter.m_session_id := Some sid; ClaudeAdapter.m_result := None;
     ClaudeAdapter.m_input_tokens := None; ClaudeAdapter.m_output_tokens := None |}.

Definition result_message (text : string) : ClaudeAdapter.SDKMessage :=
  {| ClaudeAdapter.m_type := "result"; ClaudeAdapter.m_subtype := Some "success";
     ClaudeAdapter.m_session_id := None; ClaudeAdapter.m_result := Some text;
     ClaudeAdapter.m_input_tokens := Some 100;
     ClaudeAdapter.m_output_tokens := Some 50 |}.

(** A table in which conversation ["c1"] is mapped to handle ["s1"]. *)
Definition one_session : gmap string Types.SessionInfo :=
  {[ "c1" := {| Types.sessionId := "s1"; Types.lastActivity := 0 |} ]}.

Definition claude_with (sessions : gmap string Types.SessionInfo)
  : ClaudeAdapter.State :=
  {| ClaudeAdapter.table := sessions; ClaudeAdapter.calls := [] |}.

Definition codex_with (sessions : gmap string Types.SessionInfo)
  : CodexAdapter.State :=
  {| CodexAdapter.table := sessions; CodexAdapter.calls := [] |}.

(** A backend that announces session ["s2"] and then fails. *)
Definition rate_limited (call : ClaudeAdapter.QueryCall) : ClaudeAdapter.QueryRun :=
  {| ClaudeAdapter.emitted := [init_message "s2"];
     ClaudeAdapter.failure := Some (ErrorObject "rate limited") |}.

(** A backend that answers without ever announcing a session. *)
Definition anonymous (call : ClaudeAdapter.QueryCall) : ClaudeAdapter.QueryRun :=
  {| ClaudeAdapter.emitted := [result_message "Hi there!"];
     ClaudeAdapter.failure := None |}.

(** A backend that announces session ["s1"] and answers. *)
Definition greeting (call : ClaudeAdapter.QueryCall) : ClaudeAdapter.QueryRun :=
  {| ClaudeAdapter.emitted := [init_message "s1"; result_message "Hi there!"];
     ClaudeAdapter.failure := None |}.

(** A Codex SDK whose threads cannot be opened. *)
Definition codex_down (how : CodexAdapter.ThreadOpen)
  : thrown + CodexAdapter.Thread :=
  inl (ErrorObject "rate limited").

(** A Codex SDK whose turns complete on thread ["t1"]. *)
Definition codex_up (how : CodexAdapter.ThreadOpen)
  : thrown + CodexAdapter.Thread :=
  inr {| CodexAdapter.run := λ input,
           inr (Some "t1",
                {| CodexAdapter.finalResponse := "done";
                   CodexAdapter.thread_usage :=
                     Some {| Types.input_tokens := 7; Types.output_tokens := 3 |} |}) |}.

Definition env : Bridge.Env :=
  {| Bridge.cwd := "/srv/bridge"; Bridge.t_lookup := 10; Bridge.t_store := 20;
     Bridge.claude_sdk := greeting; Bridge.codex_sdk := codex_up |}.

Definition fresh_single : Bridge.Single.Server :=
  {| Bridge.Single.claudeAdapter := claude_with ∅; Bridge.Single.chats := [] |}.

Definition fresh_multi : Bridge.Multi.Server :=
  {| Bridge.Multi.claudeAdapter := claude_with ∅;
     Bridge.Multi.codexAdapter := codex_with ∅; Bridge.Multi.chats := [] |}.

Definition text (t : string) : Claudecode.Content :=
  {| Claudecode.Type_ := Claudecode.ContentTypeText; Claudecode.Text := t |}.

Definition user (contents : list Claudecode.Content) : Claudecode.Message :=
  {| Claudecode.Role := Claudecode.MessageRoleUser;
     Claudecode.Contents := contents |}.

Definition assistant (contents : list Claudecode.Content) : Claudecode.Message :=
  {| Claudecode.Role := Claudecode.MessageRoleAssistant;
     Claudecode.Contents := contents |}.

(** A history whose last human message carries a tool result and no text. *)
Definition history_tool_result : list Claudecode.Message :=
  [ user [text "first"];
    assistant [text "response"];
    user [ {| Claudecode.Type_ := Claudecode.ContentTypeToolResult;
              Claudecode.Text := "" |} ] ].

Definition history_hello : Claudecode.Request :=
  {| Claudecode.Messages := [user [text "Hello"]] |}.

Definition service : Claudecode.Service :=
  {| Claudecode.BridgeURL := "http://localhost:9100";
     Claudecode.Model := "claude-code" |}.

(** A bridge that answers 200 with the given decoded body. *)
Definition net_answering (wire : Claudecode.bridgeChatResponse) : Claudecode.Net :=
  {| Claudecode.request_ok := λ _, true;
     Claudecode.round_trip := λ _, Claudecode.Received 200 "body";
     Claudecode.unmarshal := λ _, Some wire;
     Claudecode.clock_start := 1;
     Claudecode.clock_end := 2 |}.

Definition reply_compacted : Claudecode.bridgeChatResponse :=
  {| Claudecode.Result := "Hi there!"; Claudecode.SessionID := "s1";
     Claudecode.UsageInputTokens := 100; Claudecode.UsageOutputTokens := 50;
     Claudecode.IsError := false; Claudecode.Compacted := true |}.

Definition reply_plain : Claudecode.bridgeChatResponse :=
  {| Claudecode.Result := "Hi there!"; Claudecode.SessionID := "s1";
     Claudecode.UsageInputTokens := 100; Claudecode.UsageOutputTokens := 50;
     Claudecode.IsError := false; Claudecode.Compacted := false |}.

Definition context (id : string) : Claudecode.Context :=
  {| Claudecode.ambientConversationID := id |}.

End Scenario.

(** ** session-manager.ts: the periodic sweep *)

Module Reaper.

(** The period of [setInterval] in [startCleanupInterval]. *)
Definition CLEANUP_INTERVAL_MS : Z := 5 * 60 * 1000.

(** The callback of [startCleanupInterval], fired when the clock reads
    [now]: it sweeps, and logs the number of removed sessions when that
    number is positive. The result is the logged count, if any, and the
    swept table. *)
Definition on_tick (now : Z) (sessions : gmap string Types.SessionInfo)
  : option nat * gmap string Types.SessionInfo :=
  let removed := fst (SessionManager.cleanup now sessions) in
  (if (0 <? removed)%nat then Some removed else None,
   snd (SessionManager.cleanup now sessions)).

(** The callback fired at each of the times [ticks], in order; the log lines
    are collected oldest first. *)
Fixpoint run (ticks : list Z) (sessions : gmap string Types.SessionInfo)
  : list nat * gmap string Types.SessionInfo :=
  match ticks with
  | [] => ([], sessions)
  | now :: later =>
      let fired := on_tick now sessions in
      let rest := run later (snd fired) in
      (match fst fired with
       | Some n => n :: fst rest
       | None => fst rest
       end,
       snd rest)
  end.

End Reaper.

(** ** version/version.go *)

Module Version.

Record Info := {
  InfoVersion : string;
  InfoTag : string;
  Commit : string;
  CommitTime : string;
  Modified : bool
}.

(** One entry of [debug.BuildInfo.Settings]. *)
Record Setting := { Key : string; Value : string }.

(** The anonymous struct the embedded [build-info.json] is decoded into. *)
Record BuildJSON := {
  JCommit : string;
  JCommitTime : string;
  JModified : bool
}.

(** The body of the loop over the build settings. *)
Definition apply_setting (info : Info) (setting : Setting) : Info :=
  if String.eqb (Key setting) "vcs.revision"
  then {| InfoVersion := InfoVersion info; InfoTag := InfoTag info;
          Commit := Value setting; CommitTime := CommitTime info;
          Modified := Modified info |}
  else if String.eqb (Key setting) "vcs.time"
  then {| InfoVersion := InfoVersion info; InfoTag := InfoTag info;
          Commit := Commit info; CommitTime := Value setting;
          Modified := Modified info |}
  else if String.eqb (Key setting) "vcs.modified"
  then {| InfoVersion := InfoVersion info; InfoTag := InfoTag info;
          Commit := Commit info; CommitTime := CommitTime info;
          Modified := String.eqb (Value setting) "true" |}
  else info.

(** [GetInfo()]. [version] and [tag] are the package variables;
    [buildInfo] is what [debug.ReadBuildInfo] returns ([None] when not ok);
    [embedded] is the content of [dist/build-info.json] ([None] when it
    cannot be read) and [decode] what [json.Unmarshal] makes of it. *)
Definition GetInfo (version tag : string) (buildInfo : option (list Setting))
    (embedded : option string) (decode : string → option BuildJSON) : Info :=
  let info := {| InfoVersion := version; InfoTag := tag; Commit := "";
                 CommitTime := ""; Modified := false |} in
  let info := match buildInfo with
              | Some settings => fold_left apply_setting settings info
              | None => info
              end in
  if String.eqb (Commit info) ""
  then match embedded with
       | Some data =>
           match decode data with
           | Some buildJSON =>
               {| InfoVersion := InfoVersion info; InfoTag := InfoTag info;
                  Commit := JCommit buildJSON;
                  CommitTime := JCommitTime buildJSON;
                  Modified := JModified buildJSON |}
           | None => info
           end
       | None => info
       end
  else info.

End Version.

(** ** Further notions used in the statements *)

Module Notions.

(** A streamed message that marks a context compaction. *)
Definition compact_boundary (m : ClaudeAdapter.SDKMessage) : bool :=
  String.eqb (ClaudeAdapter.m_type m) "system"
  && JS.is_str (ClaudeAdapter.m_subtype m) "compact_boundary".

(** The table after sweeps at each of the given times, in order. *)
Definition sweeps (times : list Z) (sessions : gmap string Types.SessionInfo)
  : gmap string Types.SessionInfo :=
  fold_left (λ s now, snd (SessionManager.cleanup now s)) times sessions.

(** The last value of a build setting, [None] when the key does not occur. *)
Definition last_setting (key : string) (settings : list Version.Setting)
  : option string :=
  last (omap (λ st, if String.eqb (Version.Key st) key
                    then Some (Version.Value st) else None) settings).

(** The last reading of the [vcs.modified] setting: true only for the value
    ["true"]. *)
Definition last_modified (settings : list Version.Setting) : option bool :=
  last (omap (λ st, if String.eqb (Version.Key st) "vcs.modified"
                    then Some (String.eqb (Version.Value st) "true")
                    else None) settings).

(** A Claude backend for a resumed turn: it announces ["s2"] and answers. *)
Definition rotating (call : ClaudeAdapter.QueryCall) : ClaudeAdapter.QueryRun :=
  {| ClaudeAdapter.emitted :=
       [Scenario.init_message "s2"; Scenario.result_message "Again"];
     ClaudeAdapter.failure := None |}.

End Notions.

(** * Properties *)

(** ** JavaScript truthiness *)

Lemma nonempty_true s : JS.nonempty s = true ↔ s ≠ "".
Proof.
  unfold JS.nonempty. destruct (String.eqb_spec s ""); simpl; split; congruence.
Qed.

Lemma nonempty_false s : JS.nonempty s = false ↔ s = "".
Proof.
  unfold JS.nonempty. destruct (String.eqb_spec s ""); simpl; split; congruence.
Qed.

Lemma truthy_Some s : JS.truthy (Some s) = JS.nonempty s.
Proof. reflexivity. Qed.

(** ** Session table lemmas *)

Section session_table.
Import Types.

Implicit Types (sessions : gmap string SessionInfo) (now : Z) (id : string).

Lemma get_miss now id sessions :
  sessions !! id = None → SessionManager.get now id sessions = (None, sessions).
Proof. intros E. unfold SessionManager.get. by rewrite E. Qed.

Lemma get_hit now id sessions info :
  sessions !! id = Some info →
  SessionManager.get now id sessions =
    (Some (sessionId info),
     <[id := {| sessionId := sessionId info; lastActivity := now |}]> sessions).
Proof. intros E. unfold SessionManager.get. by rewrite E. Qed.

Lemma get_other now id id' sessions :
  id ≠ id' → snd (SessionManager.get now id sessions) !! id' = sessions !! id'.
Proof.
  intros Hne. unfold SessionManager.get.
  destruct (sessions !! id); simpl; [by rewrite lookup_insert_ne | done].
Qed.

Lemma get_handles_nonempty now id sessions :
  SessionManager.handles_nonempty sessions →
  SessionManager.handles_nonempty (snd (SessionManager.get now id sessions)).
Proof.
  intros Hinv id' info'. unfold SessionManager.get.
  destruct (sessions !! id) as [info|] eqn:E; simpl; [|apply Hinv].
  rewrite lookup_insert. case_decide as Hd.
  - intros [= <-]. simpl. by apply (Hinv id).
  - apply Hinv.
Qed.

Lemma set_handles_nonempty now id h sessions :
  h ≠ "" →
  SessionManager.handles_nonempty sessions →
  SessionManager.handles_nonempty (SessionManager.set now id h sessions).
Proof.
  intros Hh Hinv id' info'. unfold SessionManager.set.
  rewrite lookup_insert. case_decide.
  - by intros [= <-].
  - apply Hinv.
Qed.

(** The loop of [cleanup], started from any map [m0] and run over the
    entries of [m]: the swept map has lost the keys of the idle entries of
    [m], and the counter is the number of those entries. *)
Lemma cleanup_loop now (m0 m : gmap string SessionInfo) :
  let st := map_fold (SessionManager.cleanup_step now) (m0, 0%nat) m in
  (∀ id, fst st !! id =
     match m !! id with
     | Some info => if SessionManager.idle now info then None else m0 !! id
     | None => m0 !! id
     end)
  ∧ snd st = size (filter (λ kv, SessionManager.idle now (snd kv) = true) m).
Proof.
  cbv zeta.
  apply (map_fold_weak_ind
    (λ (st : gmap string SessionInfo * nat) (m : gmap string SessionInfo),
       (∀ id, fst st !! id =
          match m !! id with
          | Some info => if SessionManager.idle now info then None else m0 !! id
          | None => m0 !! id
          end)
       ∧ snd st = size (filter (λ kv, SessionManager.idle now (snd kv) = true) m))).
  - split; [intros id; by rewrite lookup_empty|].
    by rewrite map_filter_empty, map_size_empty.
  - intros i x m' [acc n] Hfresh [IHm IHn]. simpl in *.
    unfold SessionManager.cleanup_step.
    destruct (SessionManager.idle now x) eqn:Hidle; simpl.
    + split.
      * intros id. rewrite lookup_delete, (lookup_insert m').
        case_decide as Hd; [subst; by rewrite Hidle|]. apply IHm.
      * rewrite map_filter_insert_True by done.
        rewrite map_size_insert_None; [by rewrite IHn|].
        apply map_lookup_filter_None. by left.
    + split.
      * intros id. rewrite (lookup_insert m').
        case_decide as Hd; [|apply IHm].
        subst. rewrite Hidle. rewrite IHm. by rewrite Hfresh.
      * rewrite map_filter_insert_False by (simpl; congruence).
        rewrite delete_id by done. done.
Qed.

End session_table.


(** ** The idle sweep and read-is-activity *)

Section sweep.
Import Types.

Implicit Types (sessions : gmap string SessionInfo) (now : Z) (id : string).

(** What [cleanup] leaves under each key. *)
Lemma cleanup_lookup now sessions id :
  snd (SessionManager.cleanup now sessions) !! id =
    match sessions !! id with
    | Some info => if SessionManager.idle now info then None else Some info
    | None => None
    end.
Proof.
  unfold SessionManager.cleanup. simpl.
  destruct (cleanup_loop now sessions sessions) as [Hmap _].
  rewrite Hmap. by destruct (sessions !! id).
Qed.

(** The swept table is the table filtered to its entries that are not
    idle. *)
Lemma cleanup_filter now sessions :
  snd (SessionManager.cleanup now sessions) =
    filter (λ kv, SessionManager.idle now (snd kv) = false) sessions.
Proof.
  apply map_eq. intros id. rewrite cleanup_lookup.
  destruct (sessions !! id) as [info|] eqn:E.
  - destruct (SessionManager.idle now info) eqn:Hidle.
    + symmetry. apply map_lookup_filter_None. right.
      intros x Hx. simpl. congruence.
    + symmetry. apply map_lookup_filter_Some. by split.
  - symmetry. apply map_lookup_filter_None. by left.
Qed.

Lemma cleanup_count now sessions :
  fst (SessionManager.cleanup now sessions) =
    size (filter (λ kv, SessionManager.idle now (snd kv) = true) sessions).
Proof.
  unfold SessionManager.cleanup. simpl.
  by destruct (cleanup_loop now sessions sessions) as [_ Hn].
Qed.

Lemma cleanup_sizes now sessions :
  (fst (SessionManager.cleanup now sessions)
   + size (snd (SessionManager.cleanup now sessions)) = size sessions)%nat.
Proof.
  rewrite cleanup_count, cleanup_filter.
  rewrite <- map_size_disj_union.
  - f_equal.
    rewrite <- (map_filter_union_complement
                  (λ kv, SessionManager.idle now (snd kv) = true) sessions) at 3.
    f_equal. apply map_filter_ext. intros i x _. simpl.
    destruct (SessionManager.idle now x); naive_solver.
  - apply map_disjoint_spec. intros i x y Hx Hy.
    apply map_lookup_filter_Some in Hx as [Ex Hx].
    apply map_lookup_filter_Some in Hy as [Ey Hy].
    rewrite Ex in Ey. injection Ey as ->. simpl in *. congruence.
Qed.

Lemma idle_spec now info :
  SessionManager.idle now info = true ↔
  now - lastActivity info > SessionManager.IDLE_TIMEOUT_MS.
Proof. unfold SessionManager.idle. apply bool_decide_eq_true. Qed.

End sweep.

(** ** Running the adapters *)

Section adapters.
Import Exn Closed.

(** The [for await] loop of the Claude adapter folds [consume] over the
    messages the stream yields, and ends the way the stream ends. *)
Lemma claude_loop items ending (fr : ClaudeAdapter.Frame) :
  for_await items ending (λ m, ClaudeAdapter.on_locals (ClaudeAdapter.consume m)) fr =
    (match ending with
     | None => Normal tt
     | Some e => Throw e
     end,
     {| ClaudeAdapter.locals :=
          fold_left (λ l m, ClaudeAdapter.consume m l) items (ClaudeAdapter.locals fr);
        ClaudeAdapter.sessions := ClaudeAdapter.sessions fr;
        ClaudeAdapter.queries := ClaudeAdapter.queries fr |}).
Proof.
  revert fr. induction items as [|m items IH]; intros fr.
  - destruct fr, ending; reflexivity.
  - simpl. unfold bind at 1. simpl. by rewrite IH.
Qed.

(** [ClaudeAdapter.chat] in closed form. *)
Lemma claude_chat_unfold t_lookup t_store backend req st :
  let got := SessionManager.get t_lookup (Types.conversation_id req)
               (ClaudeAdapter.table st) in
  let call := {| ClaudeAdapter.prompt := Types.message req;
                 ClaudeAdapter.options := ClaudeAdapter.queryOptions req (fst got) |} in
  let l := claude_locals (backend call) in
  ClaudeAdapter.chat t_lookup t_store backend req st =
    match ClaudeAdapter.failure (backend call) with
    | None =>
        (Normal (ClaudeAdapter.response (fst got) l),
         {| ClaudeAdapter.table :=
              if JS.nonempty (ClaudeAdapter.sessionId l)
              then SessionManager.set t_store (Types.conversation_id req)
                     (ClaudeAdapter.sessionId l) (snd got)
              else snd got;
            ClaudeAdapter.calls := call :: ClaudeAdapter.calls st |})
    | Some err =>
        (Normal (ClaudeAdapter.response (fst got) (claude_caught err l)),
         {| ClaudeAdapter.table := snd got;
            ClaudeAdapter.calls := call :: ClaudeAdapter.calls st |})
    end.
Proof.
  cbv zeta. unfold ClaudeAdapter.chat, ClaudeAdapter.chat_body,
    ClaudeAdapter.try_block, ClaudeAdapter.query, claude_locals.
  unfold bind, try_catch, read, ret. simpl.
  rewrite claude_loop. simpl.
  destruct (ClaudeAdapter.failure _) as [err|]; simpl; [reflexivity|].
  destruct (JS.nonempty _); reflexivity.
Qed.

(** [CodexAdapter.chat] in closed form. *)
Lemma codex_chat_unfold t_lookup t_store cwd codex req st :
  let got := SessionManager.get t_lookup (Types.conversation_id req)
               (CodexAdapter.table st) in
  let how := CodexAdapter.thread_open cwd req (fst got) in
  CodexAdapter.chat t_lookup t_store cwd codex req st =
    match codex how with
    | inl err =>
        (Normal (CodexAdapter.response (fst got) (codex_caught err)),
         {| CodexAdapter.table := snd got;
            CodexAdapter.calls := CodexAdapter.Open how :: CodexAdapter.calls st |})
    | inr thread =>
        let log := CodexAdapter.Run (Types.message req)
                   :: CodexAdapter.Open how :: CodexAdapter.calls st in
        match CodexAdapter.run thread (Types.message req) with
        | inl err =>
            (Normal (CodexAdapter.response (fst got) (codex_caught err)),
             {| CodexAdapter.table := snd got; CodexAdapter.calls := log |})
        | inr done =>
            let l := CodexAdapter.capture (fst done) (snd done)
                       CodexAdapter.initial in
            (Normal (CodexAdapter.response (fst got) l),
             {| CodexAdapter.table :=
                  if JS.nonempty (CodexAdapter.threadId l)
                  then SessionManager.set t_store (Types.conversation_id req)
                         (CodexAdapter.threadId l) (snd got)
                  else snd got;
                CodexAdapter.calls := log |})
        end
    end.
Proof.
  cbv zeta. unfold CodexAdapter.chat, CodexAdapter.chat_body,
    CodexAdapter.try_block, CodexAdapter.sdk, CodexAdapter.record_call.
  unfold bind, try_catch, read, ret, modify, throw. simpl.
  destruct (codex _) as [err|thread]; simpl; [reflexivity|].
  destruct (CodexAdapter.run thread _) as [err|done]; simpl; [reflexivity|].
  destruct (JS.nonempty _); reflexivity.
Qed.

End adapters.

(** ** What the Claude adapter captures from a stream *)

Section capture.
Import Closed.

Lemma consume_sessionId m l :
  ClaudeAdapter.sessionId (ClaudeAdapter.consume m l) =
    default (ClaudeAdapter.sessionId l) (Spec.announced m).
Proof.
  unfold ClaudeAdapter.consume, Spec.announced.
  destruct (ClaudeAdapter.m_output_tokens m), (ClaudeAdapter.m_input_tokens m),
    (ClaudeAdapter.m_result m); simpl;
  destruct (String.eqb (ClaudeAdapter.m_type m) "system"); simpl;
    try reflexivity;
  destruct (JS.is_str (ClaudeAdapter.m_subtype m) "compact_boundary"),
    (JS.is_str (ClaudeAdapter.m_subtype m) "init"); simpl; try reflexivity;
  destruct (ClaudeAdapter.m_session_id m) as [sid|]; simpl; try reflexivity.
  all: unfold JS.nonempty; by destruct (negb _).
Qed.

Lemma fold_consume_sessionId stream l :
  ClaudeAdapter.sessionId (fold_left (λ l m, ClaudeAdapter.consume m l) stream l) =
    default (ClaudeAdapter.sessionId l) (last (omap Spec.announced stream)).
Proof.
  revert l. induction stream as [|m stream IH]; intros l; [reflexivity|].
  simpl fold_left. rewrite IH, consume_sessionId.
  change (omap Spec.announced (m :: stream))
    with (match Spec.announced m with
          | Some h => h :: omap Spec.announced stream
          | None => omap Spec.announced stream
          end).
  destruct (Spec.announced m) as [h|]; [|reflexivity].
  rewrite last_cons. by destruct (last (omap Spec.announced stream)).
Qed.

Lemma captured_handle_correct run :
  ClaudeAdapter.sessionId (claude_locals run) =
    Spec.captured_handle (ClaudeAdapter.emitted run).
Proof. unfold claude_locals. by rewrite fold_consume_sessionId. Qed.

(** A handle a message announces is never empty. *)
Lemma announced_nonempty m h : Spec.announced m = Some h → h ≠ "".
Proof.
  unfold Spec.announced.
  destruct (String.eqb _ _), (JS.is_str _ _); simpl; try discriminate.
  destruct (ClaudeAdapter.m_session_id m) as [sid|]; simpl; [|discriminate].
  destruct (String.eqb_spec sid ""); simpl; [discriminate|]. congruence.
Qed.

(** The code's [fresh || looked_up || ""] is the specification's best
    handle. *)
Lemma best_handle_correct fresh looked_up :
  JS.or_str fresh (JS.or_else looked_up "") = Spec.best_handle fresh looked_up.
Proof.
  unfold JS.or_str, Spec.best_handle, JS.or_else.
  destruct (JS.nonempty fresh); [reflexivity|].
  destruct looked_up as [h|]; [|reflexivity].
  destruct (JS.nonempty h) eqn:E; [reflexivity|].
  apply nonempty_false in E. by subst.
Qed.

(** The handle found by the lookup at the start of [chat]. *)
Lemma get_fst now id (sessions : gmap string Types.SessionInfo) :
  fst (SessionManager.get now id sessions) = Types.sessionId <$> sessions !! id.
Proof. unfold SessionManager.get. by destruct (sessions !! id). Qed.

End capture.

(** ** Activity along a history *)

Section history.

Lemma run_snoc ops op : History.run (ops ++ [op]) = History.step (History.run ops) op.
Proof. unfold History.run. by rewrite fold_left_app. Qed.

Lemma last_use_snoc id ops op :
  History.last_use id (ops ++ [op]) =
    match History.use_of id op with
    | Some t => Some t
    | None => History.last_use id ops
    end.
Proof.
  unfold History.last_use. rewrite omap_app.
  change (omap (History.use_of id) [op])
    with (match History.use_of id op with Some t => [t] | None => [] end).
  destruct (History.use_of id op) as [t|].
  - by rewrite last_snoc.
  - by rewrite app_nil_r.
Qed.

(** Every entry's [lastActivity] is the time of the last lookup or write of
    its id. *)
Lemma activity_is_last_use ops id info :
  History.run ops !! id = Some info →
  History.last_use id ops = Some (Types.lastActivity info).
Proof.
  revert info. induction ops as [|op ops IH] using rev_ind; intros info.
  - unfold History.run. simpl. by rewrite lookup_empty.
  - rewrite run_snoc, last_use_snoc.
    destruct op as [now id'|now id' h|id'|now];
      unfold History.step, History.use_of.
    + destruct (String.eqb_spec id id') as [->|Hne].
      * unfold SessionManager.get.
        destruct (History.run ops !! id') as [old|] eqn:E; simpl.
        -- rewrite lookup_insert_eq. by intros [= <-].
        -- by rewrite E.
      * rewrite get_other by done. apply IH.
    + destruct (String.eqb_spec id id') as [->|Hne]; unfold SessionManager.set.
      * rewrite lookup_insert_eq. by intros [= <-].
      * rewrite lookup_insert_ne by done. apply IH.
    + unfold SessionManager.delete. simpl.
      rewrite lookup_delete. case_decide; [done|apply IH].
    + rewrite cleanup_lookup.
      destruct (History.run ops !! id) as [old|] eqn:E; [|done].
      destruct (SessionManager.idle now old); [done|].
      intros [= <-]. by apply IH.
Qed.

End history.

(** ** Claims about the session table *)

(** C5. For every table and every sweep time [now], the sweep ([cleanup],
    whose threshold is the constant [IDLE_TIMEOUT_MS]) removes exactly the
    entries with [now - lastActivity > IDLE_TIMEOUT_MS], leaves every other
    entry as it was, and returns the number of entries it removed. *)
Theorem C5_sweep_removes_exactly_idle
    (now : Z) (sessions : gmap string Types.SessionInfo) :
  let removed := fst (SessionManager.cleanup now sessions) in
  let swept := snd (SessionManager.cleanup now sessions) in
  (∀ id, swept !! id =
     match sessions !! id with
     | Some info =>
         if bool_decide (now - Types.lastActivity info
                         > SessionManager.IDLE_TIMEOUT_MS)
         then None else Some info
     | None => None
     end)
  ∧ removed =
      size (filter (λ kv, now - Types.lastActivity (snd kv)
                          > SessionManager.IDLE_TIMEOUT_MS) sessions)
  ∧ (removed + size swept = size sessions)%nat
  ∧ SessionManager.IDLE_TIMEOUT_MS = 1800000.
Proof.
  cbv zeta. split; [|split; [|split]].
  - intros id. apply cleanup_lookup.
  - rewrite cleanup_count. f_equal. apply map_filter_ext.
    intros i x _. apply idle_spec.
  - apply cleanup_sizes.
  - reflexivity.
Qed.

(** C6. [get] returns the absent value when the id has no entry; otherwise
    it returns the stored handle and sets the entry's [lastActivity] to the
    current time. A sweep at [sweep_time] after a lookup (or a write) at time
    [now] removes that entry only when [sweep_time - now] exceeds the idle
    timeout, whatever the entry's earlier activity was. Along any history of
    calls on a table that starts empty, an entry's [lastActivity] is the time
    of the last lookup or write of its id, so a sweep removes an entry only
    if that last use is older than the idle timeout. *)
Theorem C6_get_is_activity
    (now sweep_time : Z) (id handle : string)
    (sessions : gmap string Types.SessionInfo) :
  SessionManager.get now id sessions =
    match sessions !! id with
    | None => (None, sessions)
    | Some info =>
        (Some (Types.sessionId info),
         <[id := {| Types.sessionId := Types.sessionId info;
                    Types.lastActivity := now |}]> sessions)
    end
  ∧ snd (SessionManager.cleanup sweep_time
           (snd (SessionManager.get now id sessions))) !! id =
      match sessions !! id with
      | None => None
      | Some info =>
          if bool_decide (sweep_time - now > SessionManager.IDLE_TIMEOUT_MS)
          then None
          else Some {| Types.sessionId := Types.sessionId info;
                       Types.lastActivity := now |}
      end
  ∧ snd (SessionManager.cleanup sweep_time
           (SessionManager.set now id handle sessions)) !! id =
      (if bool_decide (sweep_time - now > SessionManager.IDLE_TIMEOUT_MS)
       then None
       else Some {| Types.sessionId := handle; Types.lastActivity := now |})
  ∧ (∀ ops info,
       History.run ops !! id = Some info →
       History.last_use id ops = Some (Types.lastActivity info))
  ∧ (∀ ops,
       snd (SessionManager.cleanup sweep_time (History.run ops)) !! id = None →
       History.run ops !! id = None
       ∨ ∃ t, History.last_use id ops = Some t
              ∧ sweep_time - t > SessionManager.IDLE_TIMEOUT_MS).
Proof.
  split; [|split; [|split; [|split]]].
  - unfold SessionManager.get. by destruct (sessions !! id).
  - rewrite cleanup_lookup. unfold SessionManager.get.
    destruct (sessions !! id) as [info|] eqn:E; simpl.
    + by rewrite lookup_insert_eq.
    + by rewrite E.
  - rewrite cleanup_lookup. unfold SessionManager.set.
    by rewrite lookup_insert_eq.
  - intros ops info. apply activity_is_last_use.
  - intros ops. rewrite cleanup_lookup.
    destruct (History.run ops !! id) as [info|] eqn:E; [|by left].
    destruct (SessionManager.idle sweep_time info) eqn:Hidle; [|done].
    intros _. right. exists (Types.lastActivity info). split.
    + by apply activity_is_last_use.
    + by apply idle_spec.
Qed.

(** ** Claims about the adapters *)

(** C1. Neither adapter's [chat] ever completes with a thrown value: it
    always returns a response. When the backend fails (the Claude stream
    throws after yielding some messages; opening the Codex thread throws, or
    running the turn on it rejects), the response has [is_error = true],
    its [result] is the error's message, or the adapter's fixed fallback text
    when what was thrown is not an [Error], and its [session_id] is the handle
    captured before the failure if there is one, else the handle found by the
    lookup at the start of the call, else empty. *)
Theorem C1_adapter_error_isolation :
  (∀ t_lookup t_store backend req st,
     ∃ resp, fst (ClaudeAdapter.chat t_lookup t_store backend req st)
             = Exn.Normal resp)
  ∧ (∀ t_lookup t_store cwd codex req st,
     ∃ resp, fst (CodexAdapter.chat t_lookup t_store cwd codex req st)
             = Exn.Normal resp)
  ∧ (∀ t_lookup t_store backend req st err,
     let looked_up :=
       Types.sessionId <$> ClaudeAdapter.table st !! Types.conversation_id req in
     let run := backend {| ClaudeAdapter.prompt := Types.message req;
                           ClaudeAdapter.options :=
                             ClaudeAdapter.queryOptions req looked_up |} in
     ClaudeAdapter.failure run = Some err →
     ∃ resp,
       fst (ClaudeAdapter.chat t_lookup t_store backend req st) = Exn.Normal resp
       ∧ Types.is_error resp = true
       ∧ Types.result resp =
           match err with
           | Exn.ErrorObject message => message
           | Exn.NonError => "Unknown error from Claude Code"
           end
       ∧ Types.session_id resp =
           Spec.best_handle
             (Spec.captured_handle (ClaudeAdapter.emitted run)) looked_up)
  ∧ (∀ t_lookup t_store cwd codex req st err,
     let looked_up :=
       Types.sessionId <$> CodexAdapter.table st !! Types.conversation_id req in
     let how := CodexAdapter.thread_open cwd req looked_up in
     (codex how = inl err
      ∨ ∃ thread, codex how = inr thread
                  ∧ CodexAdapter.run thread (Types.message req) = inl err) →
     ∃ resp,
       fst (CodexAdapter.chat t_lookup t_store cwd codex req st) = Exn.Normal resp
       ∧ Types.is_error resp = true
       ∧ Types.result resp =
           match err with
           | Exn.ErrorObject message => message
           | Exn.NonError => "Unknown error from Codex"
           end
       ∧ Types.session_id resp = Spec.best_handle "" looked_up).
Proof.
  split; [|split; [|split]].
  - intros. rewrite claude_chat_unfold. cbv zeta.
    destruct (ClaudeAdapter.failure _); eauto.
  - intros. rewrite codex_chat_unfold. cbv zeta.
    destruct (codex _) as [e|thread]; [eauto|].
    destruct (CodexAdapter.run thread _); eauto.
  - intros t_lookup t_store backend req st err looked_up run Hfail.
    rewrite claude_chat_unfold. cbv zeta. rewrite get_fst.
    fold looked_up. fold run. rewrite Hfail.
    eexists. split; [reflexivity|]. simpl. split; [reflexivity|].
    split; [by destruct err|].
    rewrite best_handle_correct. f_equal. apply captured_handle_correct.
  - intros t_lookup t_store cwd codex req st err looked_up how Hfail.
    rewrite codex_chat_unfold. cbv zeta. rewrite get_fst.
    fold looked_up. fold how.
    destruct Hfail as [Hopen | (thread & Hopen & Hrun)]; rewrite Hopen.
    + eexists. split; [reflexivity|]. simpl. split; [reflexivity|].
      split; [by destruct err|]. apply best_handle_correct.
    + rewrite Hrun.
      eexists. split; [reflexivity|]. simpl. split; [reflexivity|].
      split; [by destruct err|]. apply best_handle_correct.
Qed.

(** The scenario of the specification: the backend announces ["s2"] and then
    fails with "rate limited" while ["c1"] was mapped to ["s1"]. *)
Lemma C1_witness :
  ∃ resp,
    fst (ClaudeAdapter.chat 10 20 Scenario.rate_limited
           (Scenario.request "c1" "Hello")
           (Scenario.claude_with Scenario.one_session)) = Exn.Normal resp
    ∧ Types.is_error resp = true
    ∧ Types.result resp = "rate limited"
    ∧ Types.session_id resp = "s2".
Proof.
  destruct C1_adapter_error_isolation as (_ & _ & Hclaude & _).
  destruct (Hclaude 10 20 Scenario.rate_limited (Scenario.request "c1" "Hello")
              (Scenario.claude_with Scenario.one_session)
              (Exn.ErrorObject "rate limited") eq_refl)
    as (resp & Hresp & Herr & Htext & Hid).
  exists resp. repeat split; [exact Hresp | exact Herr | exact Htext |].
  rewrite Hid. reflexivity.
Defined.

(** ** Successful turns and the table *)

Section success.
Import Closed.

Lemma consume_isError m l :
  ClaudeAdapter.isError (ClaudeAdapter.consume m l) = ClaudeAdapter.isError l.
Proof.
  unfold ClaudeAdapter.consume.
  destruct (ClaudeAdapter.m_output_tokens m), (ClaudeAdapter.m_input_tokens m),
    (ClaudeAdapter.m_result m); simpl;
  destruct (_ && JS.truthy _), (_ && JS.is_str _ "compact_boundary");
  reflexivity.
Qed.

Lemma claude_locals_isError run :
  ClaudeAdapter.isError (claude_locals run) = false.
Proof.
  unfold claude_locals.
  assert (∀ stream l,
            ClaudeAdapter.isError
              (fold_left (λ l m, ClaudeAdapter.consume m l) stream l)
            = ClaudeAdapter.isError l) as Hfold.
  { induction stream as [|m stream IH]; intros l; [reflexivity|].
    simpl. by rewrite IH, consume_isError. }
  by rewrite Hfold.
Qed.

(** The handle captured from a stream is empty exactly when nothing was
    announced; when non-empty it is what the adapter stores. *)
Lemma captured_handle_cases stream :
  Spec.captured_handle stream = ""
  ∨ ∃ h, last (omap Spec.announced stream) = Some h
         ∧ Spec.captured_handle stream = h ∧ h ≠ "".
Proof.
  unfold Spec.captured_handle.
  destruct (last (omap Spec.announced stream)) as [h|] eqn:E; [|by left].
  right. exists h. split; [done|]. split; [done|].
  apply last_Some_elem_of in E. apply list_elem_of_omap in E as (m & _ & Hm).
  by apply announced_nonempty in Hm.
Qed.

(** [ClaudeAdapter.chat] keeps every stored handle non-empty. *)
Lemma claude_chat_handles_nonempty t_lookup t_store backend req st :
  SessionManager.handles_nonempty (ClaudeAdapter.table st) →
  SessionManager.handles_nonempty
    (ClaudeAdapter.table (snd (ClaudeAdapter.chat t_lookup t_store backend req st))).
Proof.
  intros Hinv. rewrite claude_chat_unfold. cbv zeta.
  pose proof (get_handles_nonempty t_lookup (Types.conversation_id req) _ Hinv)
    as Hgot.
  destruct (ClaudeAdapter.failure _); simpl; [done|].
  destruct (JS.nonempty _) eqn:E; [|done].
  apply set_handles_nonempty; [|done]. by apply nonempty_true.
Qed.

(** [CodexAdapter.chat] keeps every stored handle non-empty. *)
Lemma codex_chat_handles_nonempty t_lookup t_store cwd codex req st :
  SessionManager.handles_nonempty (CodexAdapter.table st) →
  SessionManager.handles_nonempty
    (CodexAdapter.table (snd (CodexAdapter.chat t_lookup t_store cwd codex req st))).
Proof.
  intros Hinv. rewrite codex_chat_unfold. cbv zeta.
  pose proof (get_handles_nonempty t_lookup (Types.conversation_id req) _ Hinv)
    as Hgot.
  destruct (codex _) as [e|thread]; simpl; [done|].
  destruct (CodexAdapter.run thread _) as [e|done']; simpl; [done|].
  destruct (JS.nonempty _) eqn:E; [|done].
  apply set_handles_nonempty; [|done]. by apply nonempty_true.
Qed.

End success.

(** C3, as stated, fails: a first chat call on an unseen conversation id can
    succeed ([is_error = false]) without establishing any entry, namely when
    the backend never announces a session; the adapter stores a handle only
    under [if (sessionId)]. *)
Lemma C3_counterexample :
  ¬ (∀ t_lookup t_store backend req st resp,
       ClaudeAdapter.table st !! Types.conversation_id req = None →
       fst (ClaudeAdapter.chat t_lookup t_store backend req st) = Exn.Normal resp →
       Types.is_error resp = false →
       ∃ info,
         ClaudeAdapter.table
           (snd (ClaudeAdapter.chat t_lookup t_store backend req st))
           !! Types.conversation_id req = Some info
         ∧ Types.sessionId info ≠ "").
Proof.
  intros Hclaim.
  edestruct (Hclaim 10 20 Scenario.anonymous (Scenario.request "c1" "Hello")
               (Scenario.claude_with ∅)) as (info & Hinfo & _).
  - apply lookup_empty.
  - vm_compute. reflexivity.
  - reflexivity.
  - vm_compute in Hinfo. discriminate Hinfo.
Qed.

(** C3, amended. On a conversation id the table has never seen, [get] returns
    absent. The first successful chat call for such an id establishes an
    entry exactly when the backend reported a non-empty handle during the
    turn, and the entry then holds that handle; when no handle was reported
    the call succeeds and the table still has no entry for the id. Every
    entry an adapter's [chat] writes has a non-empty handle: if all stored
    handles are non-empty before a call, they are after it. *)
Theorem C3_first_chat_establishes_entry :
  (∀ now id (sessions : gmap string Types.SessionInfo),
     sessions !! id = None →
     SessionManager.get now id sessions = (None, sessions))
  ∧ (∀ t_lookup t_store backend req st,
       let id := Types.conversation_id req in
       let run := backend {| ClaudeAdapter.prompt := Types.message req;
                             ClaudeAdapter.options :=
                               ClaudeAdapter.queryOptions req None |} in
       let fresh := Spec.captured_handle (ClaudeAdapter.emitted run) in
       ClaudeAdapter.table st !! id = None →
       ClaudeAdapter.failure run = None →
       ∃ resp,
         fst (ClaudeAdapter.chat t_lookup t_store backend req st) = Exn.Normal resp
         ∧ Types.is_error resp = false
         ∧ ClaudeAdapter.table
             (snd (ClaudeAdapter.chat t_lookup t_store backend req st)) !! id =
             (if JS.nonempty fresh
              then Some {| Types.sessionId := fresh;
                           Types.lastActivity := t_store |}
              else None))
  ∧ (∀ t_lookup t_store cwd codex req st thread thread_id turn,
       let id := Types.conversation_id req in
       CodexAdapter.table st !! id = None →
       codex (CodexAdapter.StartThread (JS.or_str (Types.working_dir req) cwd))
         = inr thread →
       CodexAdapter.run thread (Types.message req) = inr (thread_id, turn) →
       ∃ resp,
         fst (CodexAdapter.chat t_lookup t_store cwd codex req st) = Exn.Normal resp
         ∧ Types.is_error resp = false
         ∧ CodexAdapter.table
             (snd (CodexAdapter.chat t_lookup t_store cwd codex req st)) !! id =
             (if JS.truthy thread_id
              then Some {| Types.sessionId := JS.or_else thread_id "";
                           Types.lastActivity := t_store |}
              else None))
  ∧ (∀ t_lookup t_store backend req st,
       SessionManager.handles_nonempty (ClaudeAdapter.table st) →
       SessionManager.handles_nonempty
         (ClaudeAdapter.table
            (snd (ClaudeAdapter.chat t_lookup t_store backend req st))))
  ∧ (∀ t_lookup t_store cwd codex req st,
       SessionManager.handles_nonempty (CodexAdapter.table st) →
       SessionManager.handles_nonempty
         (CodexAdapter.table
            (snd (CodexAdapter.chat t_lookup t_store cwd codex req st)))).
Proof.
  split; [|split; [|split; [|split]]].
  - intros now id sessions. apply get_miss.
  - intros t_lookup t_store backend req st id run fresh Hnew Hok.
    rewrite claude_chat_unfold. cbv zeta.
    rewrite (get_miss _ _ _ Hnew). cbn [fst snd]. fold run. rewrite Hok.
    eexists. split; [reflexivity|]. simpl.
    split; [apply claude_locals_isError|].
    rewrite captured_handle_correct. fold fresh.
    destruct (JS.nonempty fresh); [|exact Hnew].
    unfold SessionManager.set. apply lookup_insert_eq.
  - intros t_lookup t_store cwd codex req st thread thread_id turn id Hnew Hopen Hrun.
    rewrite codex_chat_unfold. cbv zeta.
    rewrite (get_miss _ _ _ Hnew). cbn [fst snd].
    unfold CodexAdapter.thread_open. cbn [JS.truthy]. rewrite Hopen, Hrun. simpl.
    eexists. split; [reflexivity|]. split; [reflexivity|].
    destruct thread_id as [h|]; simpl; [|exact Hnew].
    unfold JS.nonempty. destruct (negb (String.eqb h "")) eqn:E; simpl;
      rewrite ?E; [|exact Hnew].
    unfold SessionManager.set. apply lookup_insert_eq.
  - intros. by apply claude_chat_handles_nonempty.
  - intros. by apply codex_chat_handles_nonempty.
Qed.

(** The first turn of the specification's scenario: conversation ["c1"] is
    new, the backend announces ["s1"], and the entry is established. *)
Lemma C3_witness :
  ∃ resp,
    fst (ClaudeAdapter.chat 10 20 Scenario.greeting
           (Scenario.request "c1" "Hello") (Scenario.claude_with ∅))
      = Exn.Normal resp
    ∧ Types.is_error resp = false
    ∧ ClaudeAdapter.table
        (snd (ClaudeAdapter.chat 10 20 Scenario.greeting
                (Scenario.request "c1" "Hello") (Scenario.claude_with ∅)))
        !! "c1"
      = Some {| Types.sessionId := "s1"; Types.lastActivity := 20 |}.
Proof.
  destruct C3_first_chat_establishes_entry as (_ & Hclaude & _).
  exact (Hclaude 10 20 Scenario.greeting (Scenario.request "c1" "Hello")
           (Scenario.claude_with ∅) (lookup_empty _) eq_refl).
Defined.

(** ** Claims about the bridge service *)

Section service.

(** A valid body is handed to an adapter: the counterpart of C2. *)
Lemma valid_body_reaches_adapter env body :
  Bridge.invalid body = false →
  (∀ srv, Bridge.Single.chats (snd (Bridge.Single.post_chat env body srv)) =
            Bridge.validated env body :: Bridge.Single.chats srv)
  ∧ (∀ srv, ∃ backend,
        Bridge.Multi.chats (snd (Bridge.Multi.post_chat env body srv)) =
          (backend, Bridge.validated env body) :: Bridge.Multi.chats srv).
Proof.
  intros Hvalid. split; intros srv.
  - unfold Bridge.Single.post_chat. by rewrite Hvalid.
  - unfold Bridge.Multi.post_chat. rewrite Hvalid.
    destruct (Bridge.isCodexModel _); eauto.
Qed.

Lemma invalid_iff body :
  Bridge.invalid body = true ↔
  Bridge.b_conversation_id body = None ∨ Bridge.b_conversation_id body = Some ""
  ∨ Bridge.b_message body = None ∨ Bridge.b_message body = Some "".
Proof.
  unfold Bridge.invalid, JS.truthy.
  destruct (Bridge.b_conversation_id body) as [c|], (Bridge.b_message body) as [m|];
    simpl; try destruct (String.eqb_spec c ""); try destruct (String.eqb_spec m "");
    simpl; split; intros H; subst; eauto; try discriminate;
    destruct H as [H|[H|[H|H]]]; congruence.
Qed.

End service.

(** C2. A chat request whose [conversation_id] or [message] is missing or
    empty is answered, by either server, with status 400 and the response
    [{result: "", session_id: "", usage: {0, 0}, is_error: true}]; the
    server's state is left as it was: no request is handed to an adapter, no
    session table is read or written, and no backend is called. *)
Theorem C2_missing_fields_rejected (env : Bridge.Env) (body : Bridge.Body) :
  Bridge.b_conversation_id body = None ∨ Bridge.b_conversation_id body = Some ""
  ∨ Bridge.b_message body = None ∨ Bridge.b_message body = Some "" →
  let rejected :=
    {| Bridge.status := 400;
       Bridge.payload :=
         {| Types.result := ""; Types.session_id := "";
            Types.usage := {| Types.input_tokens := 0; Types.output_tokens := 0 |};
            Types.is_error := true; Types.compacted := None |} |} in
  (∀ srv, Bridge.Single.post_chat env body srv = (rejected, srv))
  ∧ (∀ srv, Bridge.Multi.post_chat env body srv = (rejected, srv)).
Proof.
  intros Hmissing rejected. apply invalid_iff in Hmissing.
  split; intros srv.
  - unfold Bridge.Single.post_chat. by rewrite Hmissing.
  - unfold Bridge.Multi.post_chat. by rewrite Hmissing.
Qed.

(** A body without [message] is rejected by both servers. *)
Lemma C2_witness :
  let body := {| Bridge.b_conversation_id := Some "c1"; Bridge.b_message := None;
                 Bridge.b_working_dir := Some "/tmp"; Bridge.b_model := Some "codex" |} in
  Bridge.status (fst (Bridge.Single.post_chat Scenario.env body Scenario.fresh_single)) = 400
  ∧ snd (Bridge.Multi.post_chat Scenario.env body Scenario.fresh_multi)
    = Scenario.fresh_multi.
Proof.
  intros body.
  destruct (C2_missing_fields_rejected Scenario.env body) as [Hsingle Hmulti].
  - right. right. left. reflexivity.
  - split.
    + by rewrite Hsingle.
    + by rewrite Hmulti.
Defined.

(** The router on a few selectors. *)
Example isCodexModel_examples :
  Bridge.isCodexModel (Some "codex") = true
  ∧ Bridge.isCodexModel (Some "codex-mini") = true
  ∧ Bridge.isCodexModel (Some "codexx") = false
  ∧ Bridge.isCodexModel (Some "claude-code") = false
  ∧ Bridge.isCodexModel (Some "") = false
  ∧ Bridge.isCodexModel None = false.
Proof. repeat split; reflexivity. Qed.

(** No key [model] is ever put in the options of [query]. *)
Lemma queryOptions_no_model req existing :
  ClaudeAdapter.queryOptions req existing !! "model" = None.
Proof.
  unfold ClaudeAdapter.queryOptions.
  destruct existing as [sid|]; [destruct (JS.nonempty sid)|];
    destruct (JS.nonempty (Types.working_dir req));
    by rewrite ?lookup_insert_ne, lookup_empty.
Qed.

(** C8. Two chat requests that differ only in their [model] field make the
    Claude adapter call the SDK with the same prompt and the same options,
    and the options have no [model] key; the whole outcome of [chat] is the
    same. On the multi-backend server, where [model] picks the adapter, two
    bodies that differ only in [model] and are both routed to the Claude
    adapter lead to the same SDK calls, the same reply and the same session
    tables. *)
Theorem C8_model_selector_not_forwarded
    (t_lookup t_store : Z)
    (backend : ClaudeAdapter.QueryCall → ClaudeAdapter.QueryRun)
    (id text dir : string) (model1 model2 : option string)
    (st : ClaudeAdapter.State) :
  let req model :=
    {| Types.conversation_id := id; Types.message := text;
       Types.working_dir := dir; Types.model := model |} in
  let looked_up := Types.sessionId <$> ClaudeAdapter.table st !! id in
  let call := {| ClaudeAdapter.prompt := text;
                 ClaudeAdapter.options :=
                   ClaudeAdapter.queryOptions (req model1) looked_up |} in
  ClaudeAdapter.chat t_lookup t_store backend (req model1) st
    = ClaudeAdapter.chat t_lookup t_store backend (req model2) st
  ∧ ClaudeAdapter.calls
      (snd (ClaudeAdapter.chat t_lookup t_store backend (req model1) st))
    = call :: ClaudeAdapter.calls st
  ∧ ClaudeAdapter.calls
      (snd (ClaudeAdapter.chat t_lookup t_store backend (req model2) st))
    = call :: ClaudeAdapter.calls st
  ∧ ClaudeAdapter.options call !! "model" = None
  ∧ (∀ env conv msg wd srv,
       let body model :=
         {| Bridge.b_conversation_id := conv; Bridge.b_message := msg;
            Bridge.b_working_dir := wd; Bridge.b_model := model |} in
       let out1 := Bridge.Multi.post_chat env (body model1) srv in
       let out2 := Bridge.Multi.post_chat env (body model2) srv in
       Bridge.isCodexModel model1 = false →
       Bridge.isCodexModel model2 = false →
       fst out1 = fst out2
       ∧ Bridge.Multi.claudeAdapter (snd out1) = Bridge.Multi.claudeAdapter (snd out2)
       ∧ Bridge.Multi.codexAdapter (snd out1) = Bridge.Multi.codexAdapter (snd out2)).
Proof.
  cbv zeta. split; [reflexivity|].
  assert (∀ model,
            ClaudeAdapter.calls
              (snd (ClaudeAdapter.chat t_lookup t_store backend
                      {| Types.conversation_id := id; Types.message := text;
                         Types.working_dir := dir; Types.model := model |} st))
            = {| ClaudeAdapter.prompt := text;
                 ClaudeAdapter.options :=
                   ClaudeAdapter.queryOptions
                     {| Types.conversation_id := id; Types.message := text;
                        Types.working_dir := dir; Types.model := model1 |}
                     (Types.sessionId <$> ClaudeAdapter.table st !! id) |}
              :: ClaudeAdapter.calls st) as Hcalls.
  { intros model. rewrite claude_chat_unfold. cbv zeta. rewrite get_fst.
    by destruct (ClaudeAdapter.failure _). }
  split; [apply Hcalls|]. split; [apply Hcalls|].
  split; [apply queryOptions_no_model|].
  intros env conv msg wd srv H1 H2.
  unfold Bridge.Multi.post_chat.
  change (Bridge.invalid
            {| Bridge.b_conversation_id := conv; Bridge.b_message := msg;
               Bridge.b_working_dir := wd; Bridge.b_model := model2 |})
    with (Bridge.invalid
            {| Bridge.b_conversation_id := conv; Bridge.b_message := msg;
               Bridge.b_working_dir := wd; Bridge.b_model := model1 |}).
  destruct (Bridge.invalid _); [done|].
  cbn [Bridge.validated Types.model Bridge.b_model].
  rewrite H1, H2. done.
Qed.

(** A request without selector and one with the selector ["claude-code"]. *)
Lemma C8_witness :
  let body model :=
    {| Bridge.b_conversation_id := Some "c1"; Bridge.b_message := Some "Hello";
       Bridge.b_working_dir := Some "/tmp"; Bridge.b_model := model |} in
  fst (Bridge.Multi.post_chat Scenario.env (body None) Scenario.fresh_multi)
  = fst (Bridge.Multi.post_chat Scenario.env (body (Some "claude-code"))
           Scenario.fresh_multi).
Proof.
  intros body.
  destruct (C8_model_selector_not_forwarded 10 20 Scenario.greeting
              "c1" "Hello" "/tmp" None (Some "claude-code")
              (Scenario.claude_with ∅)) as (_ & _ & _ & _ & Hmulti).
  destruct (Hmulti Scenario.env (Some "c1") (Some "Hello") (Some "/tmp")
              Scenario.fresh_multi eq_refl eq_refl) as [Hreply _].
  exact Hreply.
Defined.

(** C9. The response of the Codex adapter never has the [compacted] key. On
    the multi-backend server, the reply to any request whose selector routes
    to Codex has no [compacted] key, be it the adapter's response or an error
    reply of the service; so whenever the client decodes that reply, its
    [Compacted] field is false and the usage it reports is the wire usage. *)
Theorem C9_codex_never_compacted :
  (∀ t_lookup t_store cwd codex req st,
     ∃ resp,
       fst (CodexAdapter.chat t_lookup t_store cwd codex req st) = Exn.Normal resp
       ∧ Types.compacted resp = None)
  ∧ (∀ env body srv,
       let reply := fst (Bridge.Multi.post_chat env body srv) in
       Bridge.isCodexModel (Bridge.b_model body) = true →
       Types.compacted (Bridge.payload reply) = None
       ∧ ∀ s net wire,
           Wire.response_of (Bridge.payload reply) = Some wire →
           Claudecode.Compacted wire = false
           ∧ Claudecode.reported_usage s net wire =
               {| Claudecode.InputTokens := Claudecode.UsageInputTokens wire;
                  Claudecode.OutputTokens := Claudecode.UsageOutputTokens wire;
                  Claudecode.StartTime := Claudecode.clock_start net;
                  Claudecode.EndTime := Claudecode.clock_end net |}).
Proof.
  assert (∀ t_lookup t_store cwd codex req st,
            ∃ resp,
              fst (CodexAdapter.chat t_lookup t_store cwd codex req st)
                = Exn.Normal resp
              ∧ Types.compacted resp = None) as Hadapter.
  { intros. rewrite codex_chat_unfold. cbv zeta.
    destruct (codex _) as [e|thread]; [eauto|].
    destruct (CodexAdapter.run thread _); eauto. }
  split; [exact Hadapter|].
  intros env body srv reply Hcodex.
  assert (Types.compacted (Bridge.payload reply) = None) as Hnone.
  { unfold reply, Bridge.Multi.post_chat.
    destruct (Bridge.invalid body); [reflexivity|].
    cbn [Bridge.validated Types.model]. rewrite Hcodex. cbn [fst].
    destruct (Hadapter (Bridge.t_lookup env) (Bridge.t_store env) (Bridge.cwd env)
                (Bridge.codex_sdk env) (Bridge.validated env body)
                (Bridge.Multi.codexAdapter srv)) as (resp & Hresp & Hc).
    cbn [Bridge.validated] in Hresp. rewrite Hresp. exact Hc. }
  split; [exact Hnone|].
  intros s net wire Hwire.
  assert (Claudecode.Compacted wire = false) as Hflag.
  { unfold Wire.response_of in Hwire. rewrite Hnone in Hwire.
    destruct (_ && _); [|discriminate]. by injection Hwire as <-. }
  split; [exact Hflag|].
  unfold Claudecode.reported_usage. by rewrite Hflag.
Qed.

(** A turn served by Codex: the reply has no [compacted] key. *)
Lemma C9_witness :
  Types.compacted
    (Bridge.payload
       (fst (Bridge.Multi.post_chat Scenario.env
               {| Bridge.b_conversation_id := Some "c1";
                  Bridge.b_message := Some "Hello";
                  Bridge.b_working_dir := None;
                  Bridge.b_model := Some "codex" |}
               Scenario.fresh_multi))) = None.
Proof.
  destruct C9_codex_never_compacted as [_ Hserver].
  destruct (Hserver Scenario.env
              {| Bridge.b_conversation_id := Some "c1";
                 Bridge.b_message := Some "Hello";
                 Bridge.b_working_dir := None;
                 Bridge.b_model := Some "codex" |}
              Scenario.fresh_multi eq_refl) as [Hnone _].
  exact Hnone.
Defined.

(** ** Claims about the caller-side client *)

Section client.

(** The scenario of the specification: a plain reply is passed through. *)
Example Do_scenario :
  fst (Claudecode.Do Scenario.service (Scenario.net_answering Scenario.reply_plain)
         (Scenario.context "c1") Scenario.history_hello)
  = inr {| Claudecode.RespRole := Claudecode.MessageRoleAssistant;
           Claudecode.RespContent := [Scenario.text "Hi there!"];
           Claudecode.RespStopReason := Claudecode.StopReasonEndTurn;
           Claudecode.RespUsage :=
             {| Claudecode.InputTokens := 100; Claudecode.OutputTokens := 50;
                Claudecode.StartTime := 1; Claudecode.EndTime := 2 |} |}.
Proof. reflexivity. Qed.

(** The tests of [extractLastUserMessage] in the repository. *)
Example extractLastUserMessage_tests :
  Claudecode.extractLastUserMessage [] = ""
  ∧ Claudecode.extractLastUserMessage [Scenario.user [Scenario.text "hello"]] = "hello"
  ∧ Claudecode.extractLastUserMessage
      [Scenario.user [Scenario.text "first"];
       Scenario.assistant [Scenario.text "response"];
       Scenario.user [Scenario.text "second"]] = "second"
  ∧ Claudecode.extractLastUserMessage
      [Scenario.assistant [Scenario.text "response"]] = "".
Proof. repeat split; reflexivity. Qed.

(** Every way [Do] can succeed. *)
Lemma Do_success_inv s net ctx req resp :
  fst (Claudecode.Do s net ctx req) = inr resp →
  ∃ r raw wire,
    snd (Claudecode.Do s net ctx req) = [r]
    ∧ Claudecode.round_trip net r = Claudecode.Received 200 raw
    ∧ Claudecode.unmarshal net raw = Some wire
    ∧ Claudecode.IsError wire = false
    ∧ resp = {| Claudecode.RespRole := Claudecode.MessageRoleAssistant;
                Claudecode.RespContent :=
                  [ {| Claudecode.Type_ := Claudecode.ContentTypeText;
                       Claudecode.Text := Claudecode.Result wire |} ];
                Claudecode.RespStopReason := Claudecode.StopReasonEndTurn;
                Claudecode.RespUsage := Claudecode.reported_usage s net wire |}.
Proof.
  unfold Claudecode.Do.
  destruct (String.eqb _ ""); [discriminate|].
  destruct (Claudecode.request_ok net _); simpl; [|discriminate].
  destruct (Claudecode.round_trip net _) as [|code|code raw] eqn:Hrt;
    [discriminate|discriminate|].
  destruct (Z.eqb_spec code 200) as [->|Hcode]; simpl; [|discriminate].
  destruct (Claudecode.unmarshal net raw) as [wire|] eqn:Hjson; [|discriminate].
  destruct (Claudecode.IsError wire) eqn:Herr; [discriminate|].
  simpl. intros [= <-]. eauto 10.
Qed.

End client.

(** ** The prompt *)

(** The branches of [Do] once the request has been built: what the round
    trip gave, the status, the decoding and the error flag. *)
Ltac Do_branches net :=
  destruct (Claudecode.round_trip net _) as [|?code|?code ?raw]; simpl;
  [ | | destruct (negb _); simpl;
        [ | destruct (Claudecode.unmarshal net _) as [?wire|]; simpl;
            [ destruct (Claudecode.IsError _); simpl | ] ] ].

Section prompt.

Lemma first_text_find contents :
  Claudecode.first_text contents =
    Claudecode.Text <$> List.find Claudecode.is_text contents.
Proof.
  induction contents as [|c rest IH]; [reflexivity|]. simpl.
  by destruct (Claudecode.is_text c).
Qed.

Lemma existsb_find {A} (p : A → bool) (l : list A) :
  existsb p l = match List.find p l with Some _ => true | None => false end.
Proof.
  induction l as [|a l IH]; [reflexivity|]. simpl. by destruct (p a).
Qed.

Lemma find_snoc {A} (p : A → bool) (l : list A) (a : A) :
  List.find p (l ++ [a]) =
    match List.find p l with
    | Some x => Some x
    | None => if p a then Some a else None
    end.
Proof.
  induction l as [|b l IH]; simpl; [reflexivity|]. by destruct (p b).
Qed.

(** The last element that satisfies [p] is the first one found from the
    end. *)
Lemma last_filter_find_rev {A} (p : A → bool) (l : list A) :
  last (List.filter p l) = List.find p (rev l).
Proof.
  induction l as [|a l IH]; [reflexivity|].
  simpl rev. rewrite find_snoc, <- IH. simpl List.filter.
  destruct (p a); [|by destruct (last _)].
  rewrite last_cons. by destruct (last _).
Qed.

(** The backward scan stops at the first message, from the end, that is of
    the human role and has a non-empty text. *)
Lemma scan_back_find newest_first :
  Claudecode.scan_back newest_first =
    match List.find Spec.user_text newest_first with
    | Some m => Spec.text_of m
    | None => ""
    end.
Proof.
  induction newest_first as [|msg older IH]; [reflexivity|].
  cbn [Claudecode.scan_back List.find]. rewrite IH.
  assert (Spec.user_text msg =
            Claudecode.role_eqb (Claudecode.Role msg) Claudecode.MessageRoleUser
            && match List.find Claudecode.is_text (Claudecode.Contents msg) with
               | Some _ => true
               | None => false
               end) as ->.
  { unfold Spec.user_text. by rewrite existsb_find. }
  rewrite first_text_find. unfold Spec.text_of.
  destruct (Claudecode.role_eqb _ _),
    (List.find Claudecode.is_text (Claudecode.Contents msg)) eqn:E; simpl;
    rewrite ?E; reflexivity.
Qed.

Lemma extract_prompt_source messages :
  Claudecode.extractLastUserMessage messages =
    match Spec.prompt_source messages with
    | Some m => Spec.text_of m
    | None => ""
    end.
Proof.
  unfold Claudecode.extractLastUserMessage, Spec.prompt_source.
  by rewrite scan_back_find, last_filter_find_rev.
Qed.

Lemma user_text_nonempty m : Spec.user_text m = true → Spec.text_of m ≠ "".
Proof.
  unfold Spec.user_text, Spec.text_of. rewrite existsb_find.
  destruct (List.find _ _) as [c|] eqn:E.
  - intros _. apply find_some in E as [_ Hc]. unfold Claudecode.is_text in Hc.
    destruct (Claudecode.Type_ c); try discriminate.
    destruct (String.eqb_spec (Claudecode.Text c) ""); [discriminate|done].
  - by rewrite andb_false_r.
Qed.

Lemma prompt_source_user_text messages m :
  Spec.prompt_source messages = Some m → Spec.user_text m = true.
Proof.
  unfold Spec.prompt_source. intros E. apply last_Some_elem_of in E.
  apply list_elem_of_In, filter_In in E. tauto.
Qed.

(** No human message, no prompt. *)
Lemma no_user_no_source messages :
  Spec.most_recent_user messages = None → Spec.prompt_source messages = None.
Proof.
  unfold Spec.most_recent_user, Spec.prompt_source.
  rewrite !last_None. intros Hnone.
  induction messages as [|m rest IH]; [reflexivity|]. simpl in *.
  unfold Spec.user_text at 1.
  destruct (Claudecode.role_eqb _ _); simpl; [discriminate|]. by apply IH.
Qed.

(** The requests [Do] sends: at most one, built after both checks. *)
Lemma Do_requests s net ctx req r :
  r ∈ snd (Claudecode.Do s net ctx req) →
  Claudecode.extractLastUserMessage (Claudecode.Messages req) ≠ ""
  ∧ r = Closed.wire_request s ctx req.
Proof.
  unfold Claudecode.Do.
  destruct (String.eqb_spec
              (Claudecode.extractLastUserMessage (Claudecode.Messages req)) "")
    as [|Hne]; [by intros ?%elem_of_nil|].
  destruct (Claudecode.request_ok net _); simpl; [|by intros ?%elem_of_nil].
  Do_branches net; by intros ->%list_elem_of_singleton.
Qed.

(** With a prompt and an acceptable URL, exactly one request is sent. *)
Lemma Do_sends_one s net ctx req :
  Claudecode.extractLastUserMessage (Claudecode.Messages req) ≠ "" →
  Claudecode.request_ok net (Claudecode.BridgeURL s ++ "/chat") = true →
  length (snd (Claudecode.Do s net ctx req)) = 1%nat.
Proof.
  intros Hne Hok. unfold Claudecode.Do.
  destruct (String.eqb_spec
              (Claudecode.extractLastUserMessage (Claudecode.Messages req)) "");
    [done|].
  rewrite Hok. simpl. Do_branches net; reflexivity.
Qed.

(** Without an acceptable URL nothing is sent. *)
Lemma Do_sends_nothing s net ctx req :
  Claudecode.request_ok net (Claudecode.BridgeURL s ++ "/chat") = false →
  snd (Claudecode.Do s net ctx req) = [].
Proof.
  intros Hurl. unfold Claudecode.Do. rewrite Hurl.
  by destruct (String.eqb _ "").
Qed.

(** What [Do] returns on a 200 reply that decodes to a response without the
    error flag. *)
Lemma Do_reply s net ctx req raw wire :
  Claudecode.extractLastUserMessage (Claudecode.Messages req) ≠ "" →
  Claudecode.request_ok net (Claudecode.BridgeURL s ++ "/chat") = true →
  Claudecode.round_trip net (Closed.wire_request s ctx req)
    = Claudecode.Received 200 raw →
  Claudecode.unmarshal net raw = Some wire →
  Claudecode.IsError wire = false →
  Claudecode.Do s net ctx req =
    (inr {| Claudecode.RespRole := Claudecode.MessageRoleAssistant;
            Claudecode.RespContent :=
              [ {| Claudecode.Type_ := Claudecode.ContentTypeText;
                   Claudecode.Text := Claudecode.Result wire |} ];
            Claudecode.RespStopReason := Claudecode.StopReasonEndTurn;
            Claudecode.RespUsage := Claudecode.reported_usage s net wire |},
     [Closed.wire_request s ctx req]).
Proof.
  intros Hprompt Hurl Hrt Hjson Herr. unfold Claudecode.Do.
  destruct (String.eqb_spec
              (Claudecode.extractLastUserMessage (Claudecode.Messages req)) "");
    [done|].
  rewrite Hurl. simpl. unfold Closed.wire_request in Hrt.
  rewrite Hrt. simpl. by rewrite Hjson, Herr.
Qed.

End prompt.

(** C4. For every request the client sends that the bridge answers with
    status 200 and a body decoding to a response without the error flag, [Do]
    succeeds; if that response has [compacted] set, the usage [Do] reports is
    200000 input tokens (the context window) and 0 output tokens, whatever
    usage the response carried; otherwise it is the usage of the response.
    Conversely every success of [Do] arises this way. *)
Theorem C4_compaction_overrides_usage
    (s : Claudecode.Service) (net : Claudecode.Net) (ctx : Claudecode.Context)
    (req : Claudecode.Request) :
  (∀ r raw wire,
     r ∈ snd (Claudecode.Do s net ctx req) →
     Claudecode.round_trip net r = Claudecode.Received 200 raw →
     Claudecode.unmarshal net raw = Some wire →
     Claudecode.IsError wire = false →
     ∃ resp,
       fst (Claudecode.Do s net ctx req) = inr resp
       ∧ Claudecode.InputTokens (Claudecode.RespUsage resp) =
           (if Claudecode.Compacted wire then 200000
            else Claudecode.UsageInputTokens wire)
       ∧ Claudecode.OutputTokens (Claudecode.RespUsage resp) =
           (if Claudecode.Compacted wire then 0
            else Claudecode.UsageOutputTokens wire))
  ∧ (∀ resp,
       fst (Claudecode.Do s net ctx req) = inr resp →
       ∃ r raw wire,
         r ∈ snd (Claudecode.Do s net ctx req)
         ∧ Claudecode.round_trip net r = Claudecode.Received 200 raw
         ∧ Claudecode.unmarshal net raw = Some wire
         ∧ Claudecode.IsError wire = false
         ∧ Claudecode.InputTokens (Claudecode.RespUsage resp) =
             (if Claudecode.Compacted wire then 200000
              else Claudecode.UsageInputTokens wire)
         ∧ Claudecode.OutputTokens (Claudecode.RespUsage resp) =
             (if Claudecode.Compacted wire then 0
              else Claudecode.UsageOutputTokens wire))
  ∧ Claudecode.TokenContextWindow s = 200000.
Proof.
  split; [|split; [|reflexivity]].
  - intros r raw wire Hr Hrt Hjson Herr.
    destruct (Do_requests _ _ _ _ _ Hr) as [Hprompt ->].
    destruct (Claudecode.request_ok net (Claudecode.BridgeURL s ++ "/chat"))
      eqn:Hurl.
    + rewrite (Do_reply s net ctx req raw wire Hprompt Hurl Hrt Hjson Herr).
      eexists. split; [reflexivity|].
      simpl. by destruct (Claudecode.Compacted wire).
    + rewrite (Do_sends_nothing _ _ _ _ Hurl) in Hr. by apply elem_of_nil in Hr.
  - intros resp Hok.
    destruct (Do_success_inv _ _ _ _ _ Hok)
      as (r & raw & wire & Hsent & Hrt & Hjson & Herr & ->).
    exists r, raw, wire. rewrite Hsent.
    split; [by apply list_elem_of_singleton|].
    repeat split; try done; simpl; by destruct (Claudecode.Compacted wire).
Qed.

(** A compacted reply carrying usage 100/50 is reported as 200000/0. *)
Lemma C4_witness :
  ∃ resp,
    fst (Claudecode.Do Scenario.service
           (Scenario.net_answering Scenario.reply_compacted)
           (Scenario.context "c1") Scenario.history_hello) = inr resp
    ∧ Claudecode.InputTokens (Claudecode.RespUsage resp) = 200000
    ∧ Claudecode.OutputTokens (Claudecode.RespUsage resp) = 0.
Proof.
  destruct (C4_compaction_overrides_usage Scenario.service
              (Scenario.net_answering Scenario.reply_compacted)
              (Scenario.context "c1") Scenario.history_hello) as [Hforward _].
  apply (Hforward (Closed.wire_request Scenario.service (Scenario.context "c1")
                     Scenario.history_hello)
                  "body" Scenario.reply_compacted).
  - apply list_elem_of_singleton. reflexivity.
  - reflexivity.
  - reflexivity.
  - reflexivity.
Defined.

(** C7, as stated, fails: when the most recent human message has no
    non-empty text content (here it carries a tool result), the prompt is not
    taken from it but from an earlier human message. *)
Lemma C7_counterexample :
  ¬ (∀ messages m,
       Spec.most_recent_user messages = Some m →
       Claudecode.extractLastUserMessage messages = Spec.text_of m).
Proof.
  intros Hclaim.
  specialize (Hclaim Scenario.history_tool_result _ eq_refl).
  vm_compute in Hclaim. discriminate Hclaim.
Qed.

(** C7, amended. The prompt is the first non-empty text content of the most
    recent human message that has one. If no human message has a non-empty
    text content (in particular if the history has no human message), [Do]
    fails with the input error and sends nothing. Otherwise [Do] does not
    fail with the input error, and every request it sends carries that
    prompt as its message. *)
Theorem C7_prompt_is_last_user_text
    (s : Claudecode.Service) (net : Claudecode.Net) (ctx : Claudecode.Context)
    (req : Claudecode.Request) :
  let messages := Claudecode.Messages req in
  Claudecode.extractLastUserMessage messages =
    match Spec.prompt_source messages with
    | Some m => Spec.text_of m
    | None => ""
    end
  ∧ match Spec.prompt_source messages with
    | None =>
        Claudecode.Do s net ctx req = (inl Claudecode.ErrNoUserMessage, [])
    | Some m =>
        Spec.text_of m ≠ ""
        ∧ fst (Claudecode.Do s net ctx req) ≠ inl Claudecode.ErrNoUserMessage
        ∧ Forall (λ r, Claudecode.Message_ (Claudecode.sent r) = Spec.text_of m)
            (snd (Claudecode.Do s net ctx req))
    end
  ∧ (Spec.most_recent_user messages = None →
     Claudecode.Do s net ctx req = (inl Claudecode.ErrNoUserMessage, [])).
Proof.
  cbv zeta.
  assert (Spec.prompt_source (Claudecode.Messages req) = None →
          Claudecode.Do s net ctx req = (inl Claudecode.ErrNoUserMessage, []))
    as Hnone.
  { intros E. unfold Claudecode.Do. by rewrite extract_prompt_source, E. }
  split; [apply extract_prompt_source|]. split.
  - destruct (Spec.prompt_source (Claudecode.Messages req)) as [m|] eqn:E;
      [|by apply Hnone].
    pose proof (user_text_nonempty m (prompt_source_user_text _ _ E)) as Hne.
    assert (Claudecode.extractLastUserMessage (Claudecode.Messages req)
            = Spec.text_of m) as Hprompt by (by rewrite extract_prompt_source, E).
    split; [exact Hne|]. split.
    + unfold Claudecode.Do. rewrite Hprompt.
      destruct (String.eqb_spec (Spec.text_of m) ""); [done|].
      destruct (Claudecode.request_ok net _); simpl; [|done].
      Do_branches net; discriminate.
    + apply Forall_forall. intros r Hr.
      apply Do_requests in Hr as [_ ->]. exact Hprompt.
  - intros E. by apply Hnone, no_user_no_source.
Qed.

(** On the history whose last human message carries only a tool result, the
    prompt sent to the bridge is the text of the earlier human message. *)
Lemma C7_witness :
  Claudecode.extractLastUserMessage Scenario.history_tool_result = "first"
  ∧ Claudecode.Do Scenario.service (Scenario.net_answering Scenario.reply_plain)
      (Scenario.context "c1")
      {| Claudecode.Messages := [Scenario.assistant [Scenario.text "I am assistant"]] |}
    = (inl Claudecode.ErrNoUserMessage, []).
Proof.
  split.
  - destruct (C7_prompt_is_last_user_text Scenario.service
                (Scenario.net_answering Scenario.reply_plain)
                (Scenario.context "c1")
                {| Claudecode.Messages := Scenario.history_tool_result |})
      as [Hprompt _].
    exact Hprompt.
  - destruct (C7_prompt_is_last_user_text Scenario.service
                (Scenario.net_answering Scenario.reply_plain)
                (Scenario.context "c1")
                {| Claudecode.Messages :=
                     [Scenario.assistant [Scenario.text "I am assistant"]] |})
      as (_ & _ & Hnone).
    exact (Hnone eq_refl).
Defined.

(** C10. Every request the client sends has an empty [working_dir]. Such a
    request passes the bridge's validation, and the request the bridge hands
    to its adapter has the bridge's own current directory as working
    directory, on either server. When the history has a prompt and the URL is
    accepted, the client does send a request. *)
Theorem C10_client_never_sends_working_dir
    (s : Claudecode.Service) (net : Claudecode.Net) (ctx : Claudecode.Context)
    (req : Claudecode.Request) :
  Forall
    (λ r,
       Claudecode.WorkingDir (Claudecode.sent r) = ""
       ∧ Bridge.b_working_dir (Wire.body_of (Claudecode.sent r)) = Some ""
       ∧ ∀ env,
           let body := Wire.body_of (Claudecode.sent r) in
           Bridge.invalid body = false
           ∧ Types.working_dir (Bridge.validated env body) = Bridge.cwd env
           ∧ (∀ srv,
                Bridge.Single.chats (snd (Bridge.Single.post_chat env body srv))
                = Bridge.validated env body :: Bridge.Single.chats srv)
           ∧ (∀ srv, ∃ backend,
                Bridge.Multi.chats (snd (Bridge.Multi.post_chat env body srv))
                = (backend, Bridge.validated env body) :: Bridge.Multi.chats srv))
    (snd (Claudecode.Do s net ctx req))
  ∧ (Claudecode.extractLastUserMessage (Claudecode.Messages req) ≠ "" →
     Claudecode.request_ok net (Claudecode.BridgeURL s ++ "/chat") = true →
     length (snd (Claudecode.Do s net ctx req)) = 1%nat).
Proof.
  split; [|apply Do_sends_one].
  apply Forall_forall. intros r Hr.
  apply Do_requests in Hr as [Hprompt ->].
  unfold Closed.wire_request. cbn [Claudecode.sent Claudecode.WorkingDir].
  split; [reflexivity|]. split; [reflexivity|].
  intros env. set (body := Wire.body_of _).
  assert (Bridge.invalid body = false) as Hvalid.
  { unfold body, Bridge.invalid, Wire.body_of. simpl.
    apply nonempty_true in Hprompt. unfold JS.nonempty in Hprompt.
    rewrite Hprompt.
    by destruct (String.eqb_spec (Claudecode.ConversationIDFromContext ctx) "");
      [|apply nonempty_true in n; unfold JS.nonempty in n; rewrite n]. }
  split; [exact Hvalid|]. split; [reflexivity|].
  by apply valid_body_reaches_adapter.
Qed.

(** The request sent for the history "Hello" reaches the Claude adapter with
    the bridge's directory. *)
Lemma C10_witness :
  length (snd (Claudecode.Do Scenario.service
                 (Scenario.net_answering Scenario.reply_plain)
                 (Scenario.context "c1") Scenario.history_hello)) = 1%nat.
Proof.
  destruct (C10_client_never_sends_working_dir Scenario.service
              (Scenario.net_answering Scenario.reply_plain)
              (Scenario.context "c1") Scenario.history_hello) as [_ Hsent].
  apply Hsent.
  - discriminate.
  - reflexivity.
Defined.

(** * Further properties of the code *)

(** ** The session table *)

Section table_more.

Implicit Types (sessions : gmap string Types.SessionInfo) (now : Z) (id : string).

Lemma get_size now id sessions :
  size (snd (SessionManager.get now id sessions)) = size sessions.
Proof.
  unfold SessionManager.get.
  destruct (sessions !! id) as [info|] eqn:E; simpl; [|done].
  rewrite map_size_insert_Some; [done|]. by rewrite E.
Qed.

Lemma set_size now id h sessions :
  size (SessionManager.set now id h sessions) =
    if bool_decide (is_Some (sessions !! id)) then size sessions
    else S (size sessions).
Proof.
  unfold SessionManager.set. case_bool_decide as Hin.
  - by apply map_size_insert_Some.
  - apply map_size_insert_None. by apply eq_None_not_Some.
Qed.

Lemma sweeps_lookup times sessions id :
  Notions.sweeps times sessions !! id =
    match sessions !! id with
    | Some info =>
        if existsb (λ now, SessionManager.idle now info) times then None
        else Some info
    | None => None
    end.
Proof.
  revert sessions. induction times as [|now times IH]; intros sessions.
  - simpl. by destruct (sessions !! id).
  - unfold Notions.sweeps in *. cbn [fold_left]. rewrite IH, cleanup_lookup.
    destruct (sessions !! id) as [info|]; [|done]. simpl.
    by destruct (SessionManager.idle now info).
Qed.

End table_more.

(** X1. Deleting a conversation id reports whether it had an entry; after
    it a lookup of the id returns absent, a second delete returns false and
    changes nothing, and every other id keeps its entry. *)
Theorem X1_delete_then_get
    (now : Z) (id : string) (sessions : gmap string Types.SessionInfo) :
  let after := snd (SessionManager.delete id sessions) in
  (fst (SessionManager.delete id sessions) = true ↔ is_Some (sessions !! id))
  ∧ SessionManager.get now id after = (None, after)
  ∧ SessionManager.delete id after = (false, after)
  ∧ (∀ id', id' ≠ id → after !! id' = sessions !! id')
  ∧ (fst (SessionManager.delete id sessions) = false → after = sessions).
Proof.
  cbv zeta. unfold SessionManager.delete. cbn [fst snd].
  split; [apply bool_decide_eq_true|]. split; [|split; [|split]].
  - apply get_miss, lookup_delete_eq.
  - rewrite lookup_delete_eq.
    rewrite (delete_id (base.delete id sessions)) by apply lookup_delete_eq.
    rewrite bool_decide_eq_false_2; [done|]. by intros [? ?].
  - intros id' Hne. by apply lookup_delete_ne.
  - intros Habsent. apply bool_decide_eq_false in Habsent.
    apply delete_id. by apply eq_None_not_Some.
Qed.

(** X2. A lookup after writes returns the handle written last: of two
    writes for the same id the later one wins, the entry's activity is the
    time of the lookup, and a write for one id is invisible under every
    other id. *)
Theorem X2_set_get_last_writer_wins
    (t1 t2 t3 : Z) (id h1 h2 : string)
    (sessions : gmap string Types.SessionInfo) :
  let written := SessionManager.set t2 id h2 (SessionManager.set t1 id h1 sessions) in
  SessionManager.get t3 id written =
    (Some h2,
     <[id := {| Types.sessionId := h2; Types.lastActivity := t3 |}]> sessions)
  ∧ written = SessionManager.set t2 id h2 sessions
  ∧ (∀ id', id' ≠ id → written !! id' = sessions !! id').
Proof.
  cbv zeta. unfold SessionManager.set.
  rewrite insert_insert_eq. split; [|split; [done|]].
  - unfold SessionManager.get. rewrite lookup_insert_eq. simpl.
    by rewrite insert_insert_eq.
  - intros id' Hne. by rewrite lookup_insert_ne.
Qed.

(** X3. The number of active sessions: a lookup never changes it, a write
    adds one exactly when the id had no entry, a delete takes one away
    exactly when it had one. *)
Theorem X3_activeCount_changes
    (now : Z) (id h : string) (sessions : gmap string Types.SessionInfo) :
  SessionManager.activeCount (snd (SessionManager.get now id sessions))
    = SessionManager.activeCount sessions
  ∧ SessionManager.activeCount (SessionManager.set now id h sessions)
    = (if bool_decide (is_Some (sessions !! id))
       then SessionManager.activeCount sessions
       else S (SessionManager.activeCount sessions))
  ∧ (SessionManager.activeCount (snd (SessionManager.delete id sessions))
     + (if fst (SessionManager.delete id sessions) then 1 else 0)
     = SessionManager.activeCount sessions)%nat.
Proof.
  unfold SessionManager.activeCount.
  split; [apply get_size|]. split; [apply set_size|].
  unfold SessionManager.delete. cbn [fst snd].
  case_bool_decide as Hin.
  - rewrite map_size_delete_Some by done.
    assert (size sessions ≠ 0%nat); [|lia].
    apply map_size_ne_0_lookup. eauto.
  - rewrite map_size_delete_None; [lia|]. by apply eq_None_not_Some.
Qed.

(** X4. Sweeps compose: a sweep followed by a later sweep leaves the same
    table as the later sweep alone, and the two counts add up to the count of
    the later sweep alone. In particular a sweep repeated at the same time
    removes nothing more. *)
Theorem X4_cleanup_composes
    (t1 t2 : Z) (sessions : gmap string Types.SessionInfo) :
  (t1 ≤ t2)%Z →
  let first := SessionManager.cleanup t1 sessions in
  let second := SessionManager.cleanup t2 (snd first) in
  snd second = snd (SessionManager.cleanup t2 sessions)
  ∧ (fst first + fst second = fst (SessionManager.cleanup t2 sessions))%nat
  ∧ SessionManager.cleanup t1 (snd first) = (0%nat, snd first).
Proof.
  intros Hle first second.
  assert (∀ ta tb s, (ta ≤ tb)%Z →
            snd (SessionManager.cleanup tb (snd (SessionManager.cleanup ta s)))
            = snd (SessionManager.cleanup tb s)) as Hmap.
  { intros ta tb s Hab. apply map_eq. intros id. rewrite !cleanup_lookup.
    destruct (s !! id) as [info|]; [|done].
    destruct (SessionManager.idle ta info) eqn:Ha; [|done].
    apply idle_spec in Ha.
    assert (SessionManager.idle tb info = true) as ->; [|done].
    apply idle_spec. lia. }
  assert (∀ ta tb s, (ta ≤ tb)%Z →
            (fst (SessionManager.cleanup ta s)
             + fst (SessionManager.cleanup tb (snd (SessionManager.cleanup ta s)))
             = fst (SessionManager.cleanup tb s))%nat) as Hcount.
  { intros ta tb s Hab.
    pose proof (cleanup_sizes ta s) as S1.
    pose proof (cleanup_sizes tb (snd (SessionManager.cleanup ta s))) as S2.
    pose proof (cleanup_sizes tb s) as S3.
    rewrite (Hmap ta tb s Hab) in S2. lia. }
  split; [by apply Hmap|]. split; [by apply Hcount|].
  unfold first.
  rewrite (surjective_pairing
             (SessionManager.cleanup t1 (snd (SessionManager.cleanup t1 sessions)))).
  rewrite (Hmap t1 t1 sessions (Z.le_refl _)).
  pose proof (Hcount t1 t1 sessions (Z.le_refl _)) as Hc.
  assert (fst (SessionManager.cleanup t1 (snd (SessionManager.cleanup t1 sessions)))
          = 0%nat) as -> by lia.
  reflexivity.
Qed.

(** Two sweeps five minutes apart on the one-session table. *)
Lemma X4_witness :
  snd (SessionManager.cleanup 2100000
         (snd (SessionManager.cleanup 1800000 Scenario.one_session)))
  = snd (SessionManager.cleanup 2100000 Scenario.one_session).
Proof.
  destruct (X4_cleanup_composes 1800000 2100000 Scenario.one_session)
    as [Hsame _]; [lia|exact Hsame].
Defined.

(** X5. A sweep returns 0 exactly when it leaves the table as it was, and
    that is the case exactly when no entry is idle at the sweep time. *)
Theorem X5_cleanup_noop
    (now : Z) (sessions : gmap string Types.SessionInfo) :
  (fst (SessionManager.cleanup now sessions) = 0%nat
   ↔ snd (SessionManager.cleanup now sessions) = sessions)
  ∧ (snd (SessionManager.cleanup now sessions) = sessions
     ↔ ∀ id info, sessions !! id = Some info →
                  (now - Types.lastActivity info ≤ SessionManager.IDLE_TIMEOUT_MS)%Z).
Proof.
  assert (snd (SessionManager.cleanup now sessions) = sessions
          ↔ ∀ id info, sessions !! id = Some info →
                (now - Types.lastActivity info ≤ SessionManager.IDLE_TIMEOUT_MS)%Z)
    as Hiff.
  { split.
    - intros Heq id info Hin.
      pose proof (cleanup_lookup now sessions id) as Hl.
      rewrite Heq, Hin in Hl.
      destruct (SessionManager.idle now info) eqn:Hidle; [discriminate|].
      destruct (Z.le_gt_cases (now - Types.lastActivity info)
                  SessionManager.IDLE_TIMEOUT_MS) as [|Hgt]; [done|].
      assert (SessionManager.idle now info = true); [|congruence].
      apply idle_spec. lia.
    - intros Hfresh. apply map_eq. intros id. rewrite cleanup_lookup.
      destruct (sessions !! id) as [info|] eqn:Hin; [|done].
      destruct (SessionManager.idle now info) eqn:Hidle; [|done].
      apply idle_spec in Hidle. specialize (Hfresh id info Hin). lia. }
  split; [|exact Hiff].
  pose proof (cleanup_sizes now sessions) as Hsz. split.
  - intros H0. rewrite H0 in Hsz. rewrite cleanup_filter in Hsz |- *.
    apply map_subseteq_size_eq; [apply map_filter_subseteq|].
    rewrite <- Hsz. cbn. reflexivity.
  - intros Heq. rewrite Heq in Hsz. lia.
Qed.

Section reaper.

Lemma reaper_run_table ticks (sessions : gmap string Types.SessionInfo) :
  snd (Reaper.run ticks sessions) = Notions.sweeps ticks sessions.
Proof.
  revert sessions. induction ticks as [|now later IH]; intros sessions;
    [reflexivity|].
  cbn [Reaper.run snd]. rewrite IH. reflexivity.
Qed.

Lemma reaper_run_log ticks (sessions : gmap string Types.SessionInfo) :
  (list_sum (fst (Reaper.run ticks sessions))
   + size (snd (Reaper.run ticks sessions)) = size sessions)%nat
  ∧ Forall (λ n, (0 < n)%nat) (fst (Reaper.run ticks sessions)).
Proof.
  revert sessions. induction ticks as [|now later IH]; intros sessions.
  - cbn [Reaper.run fst snd]. split; [reflexivity|constructor].
  - cbn [Reaper.run fst snd]. unfold Reaper.on_tick. cbn [fst snd].
    destruct (IH (snd (SessionManager.cleanup now sessions))) as [IHsum IHpos].
    pose proof (cleanup_sizes now sessions) as Hsz.
    destruct (Nat.ltb_spec 0 (fst (SessionManager.cleanup now sessions)))
      as [Hpos|Hzero].
    + split; [|by constructor].
      unfold list_sum in *. cbn [fold_right]. lia.
    + split; [lia|done].
Qed.

End reaper.

(** X6. The periodic sweep, fired at any sequence of times: an entry is
    gone afterwards exactly when it was idle (older than the timeout) at one
    of the firing times, every other entry is unchanged; a line is logged
    only for a positive count, and the logged counts add up to the number of
    entries removed in total. *)
Theorem X6_reaper_run
    (ticks : list Z) (sessions : gmap string Types.SessionInfo) :
  let out := Reaper.run ticks sessions in
  (∀ id, snd out !! id =
     match sessions !! id with
     | Some info =>
         if existsb (λ now, bool_decide (now - Types.lastActivity info
                                         > SessionManager.IDLE_TIMEOUT_MS)) ticks
         then None else Some info
     | None => None
     end)
  ∧ (list_sum (fst out) + size (snd out) = size sessions)%nat
  ∧ Forall (λ n, (0 < n)%nat) (fst out)
  ∧ Reaper.CLEANUP_INTERVAL_MS = 300000.
Proof.
  cbv zeta. split; [|split; [|split; [|reflexivity]]].
  - intros id. rewrite reaper_run_table. apply sweeps_lookup.
  - apply reaper_run_log.
  - apply reaper_run_log.
Qed.

(** ** The Claude adapter's normalization of a stream *)

(** Case analysis on everything the loop body tests in a message. *)
Ltac consume_cases m :=
  unfold ClaudeAdapter.consume, Notions.compact_boundary;
  destruct (ClaudeAdapter.m_output_tokens m), (ClaudeAdapter.m_input_tokens m),
    (ClaudeAdapter.m_result m),
    (String.eqb (ClaudeAdapter.m_type m) "system"),
    (JS.is_str (ClaudeAdapter.m_subtype m) "init"),
    (JS.is_str (ClaudeAdapter.m_subtype m) "compact_boundary"),
    (JS.truthy (ClaudeAdapter.m_session_id m));
  simpl; rewrite ?orb_true_r, ?orb_false_r; reflexivity.

Section normalize.
Import Closed.

(** A local that each message either overwrites or leaves alone holds, after
    the loop, the last value written. *)
Lemma fold_last_wins {A} (f : ClaudeAdapter.Locals → A)
    (g : ClaudeAdapter.SDKMessage → option A) :
  (∀ m l, f (ClaudeAdapter.consume m l) = default (f l) (g m)) →
  ∀ stream l,
    f (fold_left (λ l m, ClaudeAdapter.consume m l) stream l)
    = default (f l) (last (omap g stream)).
Proof.
  intros Hstep stream. induction stream as [|m stream IH]; intros l;
    [reflexivity|].
  cbn [fold_left]. rewrite IH, Hstep.
  change (omap g (m :: stream))
    with (match g m with
          | Some a => a :: omap g stream
          | None => omap g stream
          end).
  destruct (g m) as [a|]; [|reflexivity].
  rewrite last_cons. by destruct (last (omap g stream)).
Qed.

Lemma consume_resultText m l :
  ClaudeAdapter.resultText (ClaudeAdapter.consume m l) =
    default (ClaudeAdapter.resultText l) (ClaudeAdapter.m_result m).
Proof.
  consume_cases m.
Qed.

Lemma consume_inputTokens m l :
  ClaudeAdapter.inputTokens (ClaudeAdapter.consume m l) =
    default (ClaudeAdapter.inputTokens l) (ClaudeAdapter.m_input_tokens m).
Proof.
  consume_cases m.
Qed.

Lemma consume_outputTokens m l :
  ClaudeAdapter.outputTokens (ClaudeAdapter.consume m l) =
    default (ClaudeAdapter.outputTokens l) (ClaudeAdapter.m_output_tokens m).
Proof.
  consume_cases m.
Qed.

Lemma consume_compacted m l :
  ClaudeAdapter.compacted (ClaudeAdapter.consume m l) =
    ClaudeAdapter.compacted l || Notions.compact_boundary m.
Proof.
  consume_cases m.
Qed.

Lemma fold_compacted stream l :
  ClaudeAdapter.compacted (fold_left (λ l m, ClaudeAdapter.consume m l) stream l)
  = ClaudeAdapter.compacted l || existsb Notions.compact_boundary stream.
Proof.
  revert l. induction stream as [|m stream IH]; intros l.
  - simpl. by rewrite orb_false_r.
  - cbn [fold_left existsb]. rewrite IH, consume_compacted.
    by rewrite orb_assoc.
Qed.

End normalize.

(** X7. What the Claude adapter makes of a stream, whether it ends or
    throws: the usage is the last [input_tokens] and the last
    [output_tokens] any message carried, 0 when none did; [compacted] is
    present (and true) exactly when some message was a compaction boundary;
    the error flag is set exactly when the stream threw; the text is the last
    [result] any message carried ([""] when none did) if the stream ended,
    and the error text if it threw. Usage and the compaction flag seen before
    a failure are still reported. *)
Theorem X7_claude_normalization
    (t_lookup t_store : Z)
    (backend : ClaudeAdapter.QueryCall → ClaudeAdapter.QueryRun)
    (req : Types.ChatRequest) (st : ClaudeAdapter.State) :
  let looked_up :=
    Types.sessionId <$> ClaudeAdapter.table st !! Types.conversation_id req in
  let run := backend {| ClaudeAdapter.prompt := Types.message req;
                        ClaudeAdapter.options :=
                          ClaudeAdapter.queryOptions req looked_up |} in
  let stream := ClaudeAdapter.emitted run in
  ∃ resp,
    fst (ClaudeAdapter.chat t_lookup t_store backend req st) = Exn.Normal resp
    ∧ Types.input_tokens (Types.usage resp)
      = default 0 (last (omap ClaudeAdapter.m_input_tokens stream))
    ∧ Types.output_tokens (Types.usage resp)
      = default 0 (last (omap ClaudeAdapter.m_output_tokens stream))
    ∧ Types.compacted resp
      = (if existsb Notions.compact_boundary stream then Some true else None)
    ∧ Types.is_error resp
      = match ClaudeAdapter.failure run with
        | Some _ => true
        | None => false
        end
    ∧ Types.result resp
      = match ClaudeAdapter.failure run with
        | None => default "" (last (omap ClaudeAdapter.m_result stream))
        | Some err => Exn.message_or "Unknown error from Claude Code" err
        end.
Proof.
  cbv zeta. rewrite claude_chat_unfold. cbv zeta. rewrite get_fst.
  unfold Closed.claude_locals.
  set (run := backend _). set (stream := ClaudeAdapter.emitted run).
  pose proof (fold_last_wins ClaudeAdapter.inputTokens
                ClaudeAdapter.m_input_tokens consume_inputTokens stream
                ClaudeAdapter.initial) as Hin.
  pose proof (fold_last_wins ClaudeAdapter.outputTokens
                ClaudeAdapter.m_output_tokens consume_outputTokens stream
                ClaudeAdapter.initial) as Hout.
  pose proof (fold_last_wins ClaudeAdapter.resultText
                ClaudeAdapter.m_result consume_resultText stream
                ClaudeAdapter.initial) as Hres.
  pose proof (fold_compacted stream ClaudeAdapter.initial) as Hcomp.
  pose proof (claude_locals_isError run) as Herr.
  unfold Closed.claude_locals in Herr. fold stream in Herr.
  simpl in Hin, Hout, Hres, Hcomp.
  destruct (ClaudeAdapter.failure run) as [err|]; eexists;
    (split; [reflexivity|]); cbn -[existsb last omap fold_left];
    rewrite ?Hin, ?Hout, ?Hres, ?Hcomp, ?Herr; repeat split; reflexivity.
Qed.

(** ** Turns in sequence *)

Section turns.
Import Closed.

(** The table after a turn of the Claude adapter. *)
Lemma claude_chat_table t_lookup t_store backend req st :
  let id := Types.conversation_id req in
  let looked_up := Types.sessionId <$> ClaudeAdapter.table st !! id in
  let run := backend {| ClaudeAdapter.prompt := Types.message req;
                        ClaudeAdapter.options :=
                          ClaudeAdapter.queryOptions req looked_up |} in
  let fresh := Spec.captured_handle (ClaudeAdapter.emitted run) in
  let got := snd (SessionManager.get t_lookup id (ClaudeAdapter.table st)) in
  ClaudeAdapter.table (snd (ClaudeAdapter.chat t_lookup t_store backend req st)) =
    match ClaudeAdapter.failure run with
    | None => if JS.nonempty fresh
              then SessionManager.set t_store id fresh got else got
    | Some _ => got
    end.
Proof.
  cbv zeta. rewrite claude_chat_unfold. cbv zeta. rewrite get_fst.
  rewrite captured_handle_correct.
  by destruct (ClaudeAdapter.failure _).
Qed.

(** The handle a lookup finds, through a preceding lookup of the same
    table. *)
Lemma get_handle_after_get now id id' (sessions : gmap string Types.SessionInfo) :
  Types.sessionId <$> snd (SessionManager.get now id sessions) !! id'
  = Types.sessionId <$> sessions !! id'.
Proof.
  unfold SessionManager.get.
  destruct (sessions !! id) as [info|] eqn:E; simpl; [|done].
  rewrite lookup_insert. case_decide as Hd; [|done]. subst. by rewrite E.
Qed.

(** The handle the next turn of the Claude adapter will find. *)
Lemma claude_next_handle t_lookup t_store backend req st :
  let id := Types.conversation_id req in
  let looked_up := Types.sessionId <$> ClaudeAdapter.table st !! id in
  let run := backend {| ClaudeAdapter.prompt := Types.message req;
                        ClaudeAdapter.options :=
                          ClaudeAdapter.queryOptions req looked_up |} in
  let fresh := Spec.captured_handle (ClaudeAdapter.emitted run) in
  Types.sessionId <$>
    ClaudeAdapter.table (snd (ClaudeAdapter.chat t_lookup t_store backend req st))
      !! id
  = match ClaudeAdapter.failure run with
    | None => if JS.nonempty fresh then Some fresh else looked_up
    | Some _ => looked_up
    end.
Proof.
  cbv zeta. rewrite claude_chat_table. cbv zeta.
  destruct (ClaudeAdapter.failure _); [apply get_handle_after_get|].
  destruct (JS.nonempty _); [|apply get_handle_after_get].
  unfold SessionManager.set. by rewrite lookup_insert_eq.
Qed.

(** The call the Claude adapter makes. *)
Lemma claude_chat_calls t_lookup t_store backend req st :
  ClaudeAdapter.calls (snd (ClaudeAdapter.chat t_lookup t_store backend req st))
  = {| ClaudeAdapter.prompt := Types.message req;
       ClaudeAdapter.options :=
         ClaudeAdapter.queryOptions req
           (Types.sessionId <$>
              ClaudeAdapter.table st !! Types.conversation_id req) |}
    :: ClaudeAdapter.calls st.
Proof.
  rewrite claude_chat_unfold. cbv zeta. rewrite get_fst.
  by destruct (ClaudeAdapter.failure _).
Qed.

(** The table after a turn of the Codex adapter. *)
Lemma codex_chat_table t_lookup t_store cwd codex req st :
  let id := Types.conversation_id req in
  let looked_up := Types.sessionId <$> CodexAdapter.table st !! id in
  let how := CodexAdapter.thread_open cwd req looked_up in
  let got := snd (SessionManager.get t_lookup id (CodexAdapter.table st)) in
  CodexAdapter.table (snd (CodexAdapter.chat t_lookup t_store cwd codex req st)) =
    match codex how with
    | inl _ => got
    | inr thread =>
        match CodexAdapter.run thread (Types.message req) with
        | inl _ => got
        | inr done =>
            if JS.truthy (fst done)
            then SessionManager.set t_store id (JS.or_else (fst done) "") got
            else got
        end
    end.
Proof.
  cbv zeta. rewrite codex_chat_unfold. cbv zeta. rewrite get_fst.
  destruct (codex _) as [e|thread]; [done|].
  destruct (CodexAdapter.run thread _) as [e|[tid turn]]; [done|].
  cbn [fst snd CodexAdapter.capture CodexAdapter.threadId CodexAdapter.table].
  destruct tid as [h|]; simpl; [|done].
  unfold JS.nonempty. destruct (negb (String.eqb h "")) eqn:E; simpl;
    by rewrite ?E.
Qed.

(** The SDK calls the Codex adapter makes. *)
Lemma codex_chat_calls t_lookup t_store cwd codex req st :
  let how := CodexAdapter.thread_open cwd req
               (Types.sessionId <$>
                  CodexAdapter.table st !! Types.conversation_id req) in
  CodexAdapter.calls (snd (CodexAdapter.chat t_lookup t_store cwd codex req st))
  = match codex how with
    | inl _ => CodexAdapter.Open how :: CodexAdapter.calls st
    | inr _ => CodexAdapter.Run (Types.message req)
               :: CodexAdapter.Open how :: CodexAdapter.calls st
    end.
Proof.
  cbv zeta. rewrite codex_chat_unfold. cbv zeta. rewrite get_fst.
  destruct (codex _) as [e|thread]; [done|].
  by destruct (CodexAdapter.run thread _).
Qed.

End turns.

(** X8. Continuity in the Claude adapter. The next turn on the same
    conversation resumes with the handle the previous turn left: the handle
    the backend announced during a turn that ended normally, and otherwise
    (nothing announced, or the turn failed) the handle that was already
    stored. A handle announced before a failure is returned in the response
    but not stored. *)
Theorem X8_claude_continuity
    (t1 t2 t3 t4 : Z)
    (backend1 backend2 : ClaudeAdapter.QueryCall → ClaudeAdapter.QueryRun)
    (req1 req2 : Types.ChatRequest) (st : ClaudeAdapter.State) :
  Types.conversation_id req2 = Types.conversation_id req1 →
  let looked_up :=
    Types.sessionId <$> ClaudeAdapter.table st !! Types.conversation_id req1 in
  let call1 := {| ClaudeAdapter.prompt := Types.message req1;
                  ClaudeAdapter.options :=
                    ClaudeAdapter.queryOptions req1 looked_up |} in
  let fresh := Spec.captured_handle (ClaudeAdapter.emitted (backend1 call1)) in
  let next := match ClaudeAdapter.failure (backend1 call1) with
              | None => if JS.nonempty fresh then Some fresh else looked_up
              | Some _ => looked_up
              end in
  let st1 := snd (ClaudeAdapter.chat t1 t2 backend1 req1 st) in
  ClaudeAdapter.calls (snd (ClaudeAdapter.chat t3 t4 backend2 req2 st1))
  = {| ClaudeAdapter.prompt := Types.message req2;
       ClaudeAdapter.options := ClaudeAdapter.queryOptions req2 next |}
    :: call1 :: ClaudeAdapter.calls st
  ∧ ClaudeAdapter.queryOptions req2 next !! "resume"
    = (if JS.truthy next then ClaudeAdapter.OStr <$> next else None).
Proof.
  intros Hid looked_up call1 fresh next st1. split.
  - rewrite claude_chat_calls. unfold st1.
    rewrite Hid, claude_next_handle, claude_chat_calls. reflexivity.
  - unfold ClaudeAdapter.queryOptions.
    destruct next as [h|]; simpl.
    + destruct (JS.nonempty h) eqn:E; unfold JS.nonempty in E; rewrite E.
      * by rewrite lookup_insert_eq.
      * destruct (JS.nonempty (Types.working_dir req2));
          by rewrite ?lookup_insert_ne, lookup_empty.
    + destruct (JS.nonempty (Types.working_dir req2));
        by rewrite ?lookup_insert_ne, lookup_empty.
Qed.

(** The second scenario of the README: after the first turn stored ["s1"],
    the second turn on ["c1"] resumes ["s1"]. *)
Lemma X8_witness :
  ClaudeAdapter.options
    <$> head (ClaudeAdapter.calls
                (snd (ClaudeAdapter.chat 30 40 Notions.rotating
                        (Scenario.request "c1" "Again")
                        (snd (ClaudeAdapter.chat 10 20 Scenario.greeting
                                (Scenario.request "c1" "Hello")
                                (Scenario.claude_with ∅))))))
  = Some (ClaudeAdapter.queryOptions (Scenario.request "c1" "Again") (Some "s1")).
Proof.
  destruct (X8_claude_continuity 10 20 30 40 Scenario.greeting Notions.rotating
              (Scenario.request "c1" "Hello") (Scenario.request "c1" "Again")
              (Scenario.claude_with ∅) eq_refl) as [Hcalls _].
  rewrite Hcalls. reflexivity.
Defined.

Section turns_codex.

(** The handle the next turn of the Codex adapter will find. *)
Lemma codex_next_handle t_lookup t_store cwd codex req st :
  let id := Types.conversation_id req in
  let looked_up := Types.sessionId <$> CodexAdapter.table st !! id in
  let how := CodexAdapter.thread_open cwd req looked_up in
  Types.sessionId <$>
    CodexAdapter.table (snd (CodexAdapter.chat t_lookup t_store cwd codex req st))
      !! id
  = match codex how with
    | inl _ => looked_up
    | inr thread =>
        match CodexAdapter.run thread (Types.message req) with
        | inl _ => looked_up
        | inr done => if JS.truthy (fst done) then fst done else looked_up
        end
    end.
Proof.
  cbv zeta. rewrite codex_chat_table. cbv zeta.
  destruct (codex _) as [e|thread]; [apply get_handle_after_get|].
  destruct (CodexAdapter.run thread _) as [e|[tid turn]];
    [apply get_handle_after_get|].
  cbn [fst]. destruct (JS.truthy tid) eqn:E; [|apply get_handle_after_get].
  unfold SessionManager.set. rewrite lookup_insert_eq. simpl.
  destruct tid as [h|]; [|discriminate]. simpl in *.
  unfold JS.nonempty. by rewrite E.
Qed.

End turns_codex.

(** X9. Continuity in the Codex adapter. The first SDK call of the next
    turn on the same conversation resumes the thread whose id the previous
    turn left: the id of the thread after a turn that completed, and
    otherwise (the thread reported no id, or opening or running it failed)
    the id that was already stored; with no id at all it starts a new thread
    in the request's working directory, or the process directory when the
    request has none. The turn is run only on a thread that could be
    opened. *)
Theorem X9_codex_continuity
    (t1 t2 t3 t4 : Z) (cwd : string)
    (codex1 codex2 : CodexAdapter.ThreadOpen → Exn.thrown + CodexAdapter.Thread)
    (req1 req2 : Types.ChatRequest) (st : CodexAdapter.State) :
  Types.conversation_id req2 = Types.conversation_id req1 →
  let looked_up :=
    Types.sessionId <$> CodexAdapter.table st !! Types.conversation_id req1 in
  let how1 := CodexAdapter.thread_open cwd req1 looked_up in
  let next := match codex1 how1 with
              | inl _ => looked_up
              | inr thread =>
                  match CodexAdapter.run thread (Types.message req1) with
                  | inl _ => looked_up
                  | inr done => if JS.truthy (fst done) then fst done
                                else looked_up
                  end
              end in
  let how2 := match next with
              | Some h => if JS.nonempty h then CodexAdapter.ResumeThread h
                          else CodexAdapter.StartThread
                                 (JS.or_str (Types.working_dir req2) cwd)
              | None => CodexAdapter.StartThread
                          (JS.or_str (Types.working_dir req2) cwd)
              end in
  let st1 := snd (CodexAdapter.chat t1 t2 cwd codex1 req1 st) in
  CodexAdapter.calls (snd (CodexAdapter.chat t3 t4 cwd codex2 req2 st1))
  = match codex2 how2 with
    | inl _ => CodexAdapter.Open how2 :: CodexAdapter.calls st1
    | inr _ => CodexAdapter.Run (Types.message req2)
               :: CodexAdapter.Open how2 :: CodexAdapter.calls st1
    end.
Proof.
  intros Hid looked_up how1 next how2 st1. subst st1.
  rewrite codex_chat_calls. cbv zeta.
  rewrite Hid, codex_next_handle. cbv zeta. fold looked_up how1 next.
  assert (CodexAdapter.thread_open cwd req2 next = how2) as ->; [|reflexivity].
  unfold CodexAdapter.thread_open, how2.
  destruct next as [h|]; simpl; [|done].
  unfold JS.nonempty. by destruct (negb _).
Qed.

(** A first Codex turn stores thread ["t1"]; the second turn resumes it. *)
Lemma X9_witness :
  head (rev (take 2 (CodexAdapter.calls
     (snd (CodexAdapter.chat 30 40 "/srv" Scenario.codex_up
             (Scenario.request "c1" "Again")
             (snd (CodexAdapter.chat 10 20 "/srv" Scenario.codex_up
                     (Scenario.request "c1" "Hello")
                     (Scenario.codex_with ∅))))))))
  = Some (CodexAdapter.Open (CodexAdapter.ResumeThread "t1")).
Proof.
  rewrite (X9_codex_continuity 10 20 30 40 "/srv" Scenario.codex_up
             Scenario.codex_up (Scenario.request "c1" "Hello")
             (Scenario.request "c1" "Again") (Scenario.codex_with ∅) eq_refl).
  reflexivity.
Defined.

(** X10. After [deleteSession] of a conversation id, the next turn on that
    id does not resume anything: the Claude adapter calls the SDK without a
    [resume] option, and the Codex adapter starts a new thread. *)
Theorem X10_delete_then_chat_starts_fresh
    (t_lookup t_store : Z) (cwd : string)
    (backend : ClaudeAdapter.QueryCall → ClaudeAdapter.QueryRun)
    (codex : CodexAdapter.ThreadOpen → Exn.thrown + CodexAdapter.Thread)
    (req : Types.ChatRequest)
    (claude : ClaudeAdapter.State) (cdx : CodexAdapter.State) :
  let id := Types.conversation_id req in
  let claude' := snd (ClaudeAdapter.deleteSession id claude) in
  let cdx' := snd (CodexAdapter.deleteSession id cdx) in
  let fresh_start :=
    CodexAdapter.StartThread (JS.or_str (Types.working_dir req) cwd) in
  (∃ call,
     ClaudeAdapter.calls (snd (ClaudeAdapter.chat t_lookup t_store backend req claude'))
     = call :: ClaudeAdapter.calls claude
     ∧ ClaudeAdapter.prompt call = Types.message req
     ∧ ClaudeAdapter.options call !! "resume" = None)
  ∧ CodexAdapter.calls (snd (CodexAdapter.chat t_lookup t_store cwd codex req cdx'))
    = match codex fresh_start with
      | inl _ => CodexAdapter.Open fresh_start :: CodexAdapter.calls cdx
      | inr _ => CodexAdapter.Run (Types.message req)
                 :: CodexAdapter.Open fresh_start :: CodexAdapter.calls cdx
      end.
Proof.
  cbv zeta. split.
  - eexists. rewrite claude_chat_calls.
    unfold ClaudeAdapter.deleteSession, SessionManager.delete.
    cbn [fst snd ClaudeAdapter.table ClaudeAdapter.calls].
    rewrite lookup_delete_eq. split; [reflexivity|]. split; [reflexivity|].
    cbn [ClaudeAdapter.options fmap option_fmap option_map].
    unfold ClaudeAdapter.queryOptions.
    destruct (JS.nonempty (Types.working_dir req));
      by rewrite ?lookup_insert_ne, lookup_empty.
  - rewrite codex_chat_calls. cbv zeta.
    unfold CodexAdapter.deleteSession, SessionManager.delete.
    cbn [fst snd CodexAdapter.table CodexAdapter.calls].
    by rewrite lookup_delete_eq.
Qed.

(** X11. A failed turn never changes which handle is stored for any
    conversation: after a backend failure, in either adapter, every
    conversation id maps to the handle it mapped to before (only the
    activity time of the turn's own id is refreshed), even when the response
    of the failed turn reports a newly announced handle. *)
Theorem X11_failed_turn_keeps_handles :
  (∀ t_lookup t_store backend req st err id',
     let looked_up :=
       Types.sessionId <$> ClaudeAdapter.table st !! Types.conversation_id req in
     ClaudeAdapter.failure
       (backend {| ClaudeAdapter.prompt := Types.message req;
                   ClaudeAdapter.options :=
                     ClaudeAdapter.queryOptions req looked_up |}) = Some err →
     Types.sessionId <$>
       ClaudeAdapter.table
         (snd (ClaudeAdapter.chat t_lookup t_store backend req st)) !! id'
     = Types.sessionId <$> ClaudeAdapter.table st !! id')
  ∧ (∀ t_lookup t_store cwd codex req st err id',
       let looked_up :=
         Types.sessionId <$> CodexAdapter.table st !! Types.conversation_id req in
       let how := CodexAdapter.thread_open cwd req looked_up in
       (codex how = inl err
        ∨ ∃ thread, codex how = inr thread
                    ∧ CodexAdapter.run thread (Types.message req) = inl err) →
       Types.sessionId <$>
         CodexAdapter.table
           (snd (CodexAdapter.chat t_lookup t_store cwd codex req st)) !! id'
       = Types.sessionId <$> CodexAdapter.table st !! id').
Proof.
  split.
  - intros t_lookup t_store backend req st err id' looked_up Hfail.
    rewrite claude_chat_table. cbv zeta. fold looked_up. rewrite Hfail.
    apply get_handle_after_get.
  - intros t_lookup t_store cwd codex req st err id' looked_up how Hfail.
    rewrite codex_chat_table. cbv zeta. fold looked_up how.
    destruct Hfail as [Hopen | (thread & Hopen & Hrun)]; rewrite Hopen;
      rewrite ?Hrun; apply get_handle_after_get.
Qed.

(** The backend announces ["s2"] and fails: the response says ["s2"], the
    table still says ["s1"]. *)
Lemma X11_witness :
  Types.sessionId <$>
    ClaudeAdapter.table
      (snd (ClaudeAdapter.chat 10 20 Scenario.rate_limited
              (Scenario.request "c1" "Hello")
              (Scenario.claude_with Scenario.one_session))) !! "c1"
  = Some "s1".
Proof.
  destruct X11_failed_turn_keeps_handles as [Hclaude _].
  rewrite (Hclaude 10 20 Scenario.rate_limited (Scenario.request "c1" "Hello")
             (Scenario.claude_with Scenario.one_session)
             (Exn.ErrorObject "rate limited") "c1" eq_refl).
  reflexivity.
Defined.

(** X12. A turn touches only its own conversation: in either adapter the
    entry of every other conversation id is exactly as before, whatever the
    backend did, and the table never loses an entry and gains at most
    one. *)
Theorem X12_chat_frame :
  (∀ t_lookup t_store backend req st,
     let st' := snd (ClaudeAdapter.chat t_lookup t_store backend req st) in
     (∀ id', id' ≠ Types.conversation_id req →
             ClaudeAdapter.table st' !! id' = ClaudeAdapter.table st !! id')
     ∧ (size (ClaudeAdapter.table st) ≤ size (ClaudeAdapter.table st')
        ≤ S (size (ClaudeAdapter.table st)))%nat)
  ∧ (∀ t_lookup t_store cwd codex req st,
       let st' := snd (CodexAdapter.chat t_lookup t_store cwd codex req st) in
       (∀ id', id' ≠ Types.conversation_id req →
               CodexAdapter.table st' !! id' = CodexAdapter.table st !! id')
       ∧ (size (CodexAdapter.table st) ≤ size (CodexAdapter.table st')
          ≤ S (size (CodexAdapter.table st)))%nat).
Proof.
  assert (∀ now (sessions : gmap string Types.SessionInfo) id h (b : bool),
            let got := snd (SessionManager.get now id sessions) in
            let after := if b then SessionManager.set now id h got else got in
            (∀ t id', id' ≠ id →
               (if b then SessionManager.set t id h got else got) !! id'
               = sessions !! id')
            ∧ ∀ t, (size sessions
                    ≤ size (if b then SessionManager.set t id h got else got)
                    ≤ S (size sessions))%nat) as Hframe.
  { intros now sessions id h b got after. split.
    - intros t id' Hne. destruct b.
      + unfold SessionManager.set. rewrite lookup_insert_ne by done.
        by apply get_other.
      + by apply get_other.
    - intros t. pose proof (get_size now id sessions) as Hsz. fold got in Hsz.
      destruct b; [|lia]. rewrite set_size. case_bool_decide; lia. }
  split.
  - intros t_lookup t_store backend req st st'. unfold st'.
    rewrite claude_chat_table. cbv zeta.
    destruct (ClaudeAdapter.failure _).
    + destruct (Hframe t_lookup (ClaudeAdapter.table st)
                  (Types.conversation_id req) "" false) as [H1 H2].
      split; [intros; by apply (H1 0)|apply (H2 0)].
    + destruct (Hframe t_lookup (ClaudeAdapter.table st)
                  (Types.conversation_id req)
                  (Spec.captured_handle
                     (ClaudeAdapter.emitted
                        (backend {| ClaudeAdapter.prompt := Types.message req;
                                    ClaudeAdapter.options :=
                                      ClaudeAdapter.queryOptions req
                                        (Types.sessionId <$>
                                           ClaudeAdapter.table st
                                             !! Types.conversation_id req) |})))
                  (JS.nonempty
                     (Spec.captured_handle
                        (ClaudeAdapter.emitted
                           (backend {| ClaudeAdapter.prompt := Types.message req;
                                       ClaudeAdapter.options :=
                                         ClaudeAdapter.queryOptions req
                                           (Types.sessionId <$>
                                              ClaudeAdapter.table st
                                                !! Types.conversation_id req) |})))))
        as [H1 H2].
      split; [intros; by apply (H1 t_store)|apply (H2 t_store)].
  - intros t_lookup t_store cwd codex req st st'. unfold st'.
    rewrite codex_chat_table. cbv zeta.
    destruct (Hframe t_lookup (CodexAdapter.table st)
                (Types.conversation_id req) "" false) as [F1 F2].
    destruct (codex _) as [e|thread];
      [split; [intros; by apply (F1 0)|apply (F2 0)]|].
    destruct (CodexAdapter.run thread _) as [e|[tid turn]];
      [split; [intros; by apply (F1 0)|apply (F2 0)]|].
    cbn [fst].
    destruct (Hframe t_lookup (CodexAdapter.table st)
                (Types.conversation_id req) (JS.or_else tid "") (JS.truthy tid))
      as [H1 H2].
    split; [intros; by apply (H1 t_store)|apply (H2 t_store)].
Qed.

(** X13. What the Codex adapter returns. When opening the thread or running
    the turn fails, the response is flagged as an error, carries the error
    text, zero usage and the handle that was stored before (or none). When
    the turn completes, the response carries the final response as text, the
    usage the turn reported (zero when it reported none), and the thread's
    id, or the stored handle when the thread has no id. *)
Theorem X13_codex_normalization
    (t_lookup t_store : Z) (cwd : string)
    (codex : CodexAdapter.ThreadOpen → Exn.thrown + CodexAdapter.Thread)
    (req : Types.ChatRequest) (st : CodexAdapter.State) :
  let looked_up :=
    Types.sessionId <$> CodexAdapter.table st !! Types.conversation_id req in
  let how := CodexAdapter.thread_open cwd req looked_up in
  let failed err :=
    {| Types.result := Exn.message_or "Unknown error from Codex" err;
       Types.session_id := Spec.best_handle "" looked_up;
       Types.usage := {| Types.input_tokens := 0; Types.output_tokens := 0 |};
       Types.is_error := true; Types.compacted := None |} in
  fst (CodexAdapter.chat t_lookup t_store cwd codex req st) =
    Exn.Normal
      match codex how with
      | inl err => failed err
      | inr thread =>
          match CodexAdapter.run thread (Types.message req) with
          | inl err => failed err
          | inr done =>
              {| Types.result := CodexAdapter.finalResponse (snd done);
                 Types.session_id :=
                   Spec.best_handle (JS.or_else (fst done) "") looked_up;
                 Types.usage :=
                   default {| Types.input_tokens := 0; Types.output_tokens := 0 |}
                     (CodexAdapter.thread_usage (snd done));
                 Types.is_error := false; Types.compacted := None |}
          end
      end.
Proof.
  cbv zeta. rewrite codex_chat_unfold. cbv zeta. rewrite get_fst.
  destruct (codex _) as [err|thread].
  - cbn [fst]. unfold CodexAdapter.response. simpl.
    by rewrite best_handle_correct.
  - destruct (CodexAdapter.run thread _) as [err|[tid turn]]; cbn [fst snd].
    + unfold CodexAdapter.response. simpl. by rewrite best_handle_correct.
    + unfold CodexAdapter.response, CodexAdapter.capture.
      cbn [CodexAdapter.resultText CodexAdapter.threadId CodexAdapter.isError
           CodexAdapter.inputTokens CodexAdapter.outputTokens
           CodexAdapter.initial].
      rewrite best_handle_correct. do 2 f_equal.
      * unfold JS.or_str, JS.nonempty.
        destruct (String.eqb_spec (CodexAdapter.finalResponse turn) "");
          simpl; congruence.
      * by destruct (CodexAdapter.thread_usage turn) as [[i o]|].
Qed.

(** X14. The options the Claude adapter passes to the SDK hold the fixed
    tool allow-list and permission mode, the working directory under [cwd]
    exactly when the request has a non-empty one, the handle under [resume]
    exactly when a non-empty handle was stored, and nothing under any other
    key. *)
Theorem X14_query_options_keys
    (req : Types.ChatRequest) (existing : option string) (key : string) :
  ClaudeAdapter.queryOptions req existing !! key =
    if decide (key = "resume")
    then (if JS.truthy existing then ClaudeAdapter.OStr <$> existing else None)
    else if decide (key = "cwd")
    then (if JS.nonempty (Types.working_dir req)
          then Some (ClaudeAdapter.OStr (Types.working_dir req)) else None)
    else if decide (key = "permissionMode")
    then Some (ClaudeAdapter.OStr "bypassPermissions")
    else if decide (key = "allowedTools")
    then Some (ClaudeAdapter.OList
                 ["Bash"; "Read"; "Write"; "Edit"; "Glob"; "Grep";
                  "WebFetch"; "WebSearch"])
    else None.
Proof.
  unfold ClaudeAdapter.queryOptions, JS.truthy.
  destruct existing as [sid|]; [unfold JS.nonempty at 1;
                                destruct (negb (String.eqb sid ""))|];
    destruct (JS.nonempty (Types.working_dir req));
    repeat case_decide; subst; simpl;
    rewrite ?lookup_insert_eq, ?lookup_insert_ne, ?lookup_empty by done;
    try done;
    rewrite ?lookup_insert_eq, ?lookup_insert_ne, ?lookup_empty by done; done.
Qed.

(** ** The bridge service *)

Section service_more.



(** [s1] is a prefix of [s2] exactly when [s2] is [s1] followed by
    something. *)
Lemma prefix_app (s1 s2 : string) :
  String.prefix s1 s2 = true ↔ ∃ rest, s2 = String.append s1 rest.
Proof.
  revert s2. induction s1 as [|a s1 IH]; intros s2.
  - destruct s2 as [|b s2]; simpl; (split; [intros _; eexists; reflexivity|done]).
  - destruct s2 as [|b s2]; simpl.
    + split; [done|]. by intros [rest ?].
    + destruct (Ascii.ascii_dec a b) as [->|Hne].
      * rewrite IH. split; intros [rest Hr]; exists rest.
        -- subst. reflexivity.
        -- change (String b s2 = String b (String.append s1 rest)) in Hr.
           congruence.
      * split; [done|]. intros [rest Hr].
        change (String b s2 = String a (String.append s1 rest)) in Hr.
        congruence.
Qed.

Lemma table_size_claude t_lookup t_store backend req st :
  (size (ClaudeAdapter.table st)
   ≤ size (ClaudeAdapter.table
             (snd (ClaudeAdapter.chat t_lookup t_store backend req st)))
   ≤ S (size (ClaudeAdapter.table st)))%nat.
Proof.
  rewrite claude_chat_table. cbv zeta.
  pose proof (get_size t_lookup (Types.conversation_id req)
                (ClaudeAdapter.table st)) as Hsz.
  destruct (ClaudeAdapter.failure _); [lia|].
  destruct (JS.nonempty _); [|lia].
  rewrite set_size. case_bool_decide; lia.
Qed.

Lemma table_size_codex t_lookup t_store cwd codex req st :
  (size (CodexAdapter.table st)
   ≤ size (CodexAdapter.table
             (snd (CodexAdapter.chat t_lookup t_store cwd codex req st)))
   ≤ S (size (CodexAdapter.table st)))%nat.
Proof.
  rewrite codex_chat_table. cbv zeta.
  pose proof (get_size t_lookup (Types.conversation_id req)
                (CodexAdapter.table st)) as Hsz.
  destruct (codex _) as [e|thread]; [lia|].
  destruct (CodexAdapter.run thread _) as [e|done']; [lia|].
  destruct (JS.truthy _); [|lia].
  rewrite set_size. case_bool_decide; lia.
Qed.

End service_more.



(** X17. A selector routes to Codex exactly when it is the string ["codex"]
    or begins with ["codex-"]; an absent selector never does. *)
Theorem X17_isCodexModel_spec (model : option string) :
  Bridge.isCodexModel model = true
  ↔ ∃ s, model = Some s
         ∧ (s = "codex" ∨ ∃ rest, s = String.append "codex-" rest).
Proof.
  unfold Bridge.isCodexModel. destruct model as [s|]; simpl.
  - rewrite orb_true_iff, andb_true_iff, String.eqb_eq.
    unfold JS.nonempty.
    destruct (String.eqb_spec s "") as [->|Hne]; simpl.
    + split.
      * intros [H|[H _]]; discriminate.
      * intros (s & [= <-] & [H|[rest H]]); discriminate.
    + rewrite prefix_app. split.
      * intros [H|[_ H]]; eauto.
      * intros (s' & [= <-] & H). destruct H; eauto.
  - split; [discriminate|]. by intros (s & ? & _).
Qed.

(** X18. Deleting a session on the multi-backend server reports true
    exactly when one of the two adapters had an entry for the id; afterwards
    neither has one, every other id is untouched in both tables, no adapter
    chat was invoked, and deleting again reports false. *)
Theorem X18_delete_session_fans_out
    (id : string) (srv : Bridge.Multi.Server) :
  let out := Bridge.Multi.delete_session id srv in
  let claude_table s := ClaudeAdapter.table (Bridge.Multi.claudeAdapter s) in
  let codex_table s := CodexAdapter.table (Bridge.Multi.codexAdapter s) in
  (fst out = true
   ↔ is_Some (claude_table srv !! id) ∨ is_Some (codex_table srv !! id))
  ∧ claude_table (snd out) !! id = None
  ∧ codex_table (snd out) !! id = None
  ∧ (∀ id', id' ≠ id →
       claude_table (snd out) !! id' = claude_table srv !! id'
       ∧ codex_table (snd out) !! id' = codex_table srv !! id')
  ∧ Bridge.Multi.chats (snd out) = Bridge.Multi.chats srv
  ∧ fst (Bridge.Multi.delete_session id (snd out)) = false.
Proof.
  cbv zeta. unfold Bridge.Multi.delete_session, ClaudeAdapter.deleteSession,
    CodexAdapter.deleteSession, SessionManager.delete.
  cbn [fst snd Bridge.Multi.claudeAdapter Bridge.Multi.codexAdapter
       Bridge.Multi.chats ClaudeAdapter.table CodexAdapter.table].
  split; [|split; [|split; [|split; [|split]]]].
  - rewrite orb_true_iff, !bool_decide_eq_true. done.
  - apply lookup_delete_eq.
  - apply lookup_delete_eq.
  - intros id' Hne. by rewrite !lookup_delete_ne.
  - reflexivity.
  - rewrite !lookup_delete_eq.
    rewrite bool_decide_eq_false_2; [done|]. by intros [? ?].
Qed.

(** X19. The health endpoint counts the entries of both session tables. A
    chat request never lowers the count and raises it by at most one; a
    rejected request leaves it as it was. *)
Theorem X19_health_after_chat
    (env : Bridge.Env) (body : Bridge.Body) :
  (∀ srv,
     let after := snd (Bridge.Multi.post_chat env body srv) in
     (Bridge.Multi.health srv ≤ Bridge.Multi.health after
      ≤ S (Bridge.Multi.health srv))%nat
     ∧ (Bridge.invalid body = true →
        Bridge.Multi.health after = Bridge.Multi.health srv))
  ∧ (∀ srv,
       let after := snd (Bridge.Single.post_chat env body srv) in
       (Bridge.Single.health srv ≤ Bridge.Single.health after
        ≤ S (Bridge.Single.health srv))%nat
       ∧ (Bridge.invalid body = true →
          Bridge.Single.health after = Bridge.Single.health srv)).
Proof.
  split; intros srv after; subst after.
  - unfold Bridge.Multi.post_chat, Bridge.Multi.health,
      SessionManager.activeCount.
    destruct (Bridge.invalid body); [cbn [snd]; split; [lia|done]|].
    split; [|discriminate].
    destruct (Bridge.isCodexModel _);
      cbn [snd Bridge.Multi.claudeAdapter Bridge.Multi.codexAdapter].
    + pose proof (table_size_codex (Bridge.t_lookup env) (Bridge.t_store env)
                    (Bridge.cwd env) (Bridge.codex_sdk env)
                    (Bridge.validated env body)
                    (Bridge.Multi.codexAdapter srv)). lia.
    + pose proof (table_size_claude (Bridge.t_lookup env) (Bridge.t_store env)
                    (Bridge.claude_sdk env) (Bridge.validated env body)
                    (Bridge.Multi.claudeAdapter srv)). lia.
  - unfold Bridge.Single.post_chat, Bridge.Single.health,
      SessionManager.activeCount.
    destruct (Bridge.invalid body); [cbn [snd]; split; [lia|done]|].
    split; [|discriminate]. cbn [snd Bridge.Single.claudeAdapter].
    pose proof (table_size_claude (Bridge.t_lookup env) (Bridge.t_store env)
                  (Bridge.claude_sdk env) (Bridge.validated env body)
                  (Bridge.Single.claudeAdapter srv)). lia.
Qed.

(** X20. For every selector that is not a Codex selector, the multi-backend
    server behaves as the single-backend server: started from the same
    Claude adapter state, both give the same reply and leave the Claude
    adapter in the same state. *)
Theorem X20_multi_extends_single
    (env : Bridge.Env) (body : Bridge.Body)
    (single : Bridge.Single.Server) (multi : Bridge.Multi.Server) :
  Bridge.isCodexModel (Bridge.b_model body) = false →
  Bridge.Multi.claudeAdapter multi = Bridge.Single.claudeAdapter single →
  fst (Bridge.Multi.post_chat env body multi)
    = fst (Bridge.Single.post_chat env body single)
  ∧ Bridge.Multi.claudeAdapter (snd (Bridge.Multi.post_chat env body multi))
    = Bridge.Single.claudeAdapter (snd (Bridge.Single.post_chat env body single)).
Proof.
  intros Hroute Hsame.
  unfold Bridge.Multi.post_chat, Bridge.Single.post_chat.
  destruct (Bridge.invalid body); [done|].
  cbn [Bridge.validated Types.model]. rewrite Hroute, Hsame. done.
Qed.

(** Both servers, fresh, on a request without selector. *)
Lemma X20_witness :
  let body := {| Bridge.b_conversation_id := Some "c1";
                 Bridge.b_message := Some "Hello";
                 Bridge.b_working_dir := Some "/tmp"; Bridge.b_model := None |} in
  fst (Bridge.Multi.post_chat Scenario.env body Scenario.fresh_multi)
  = fst (Bridge.Single.post_chat Scenario.env body Scenario.fresh_single).
Proof.
  intros body.
  destruct (X20_multi_extends_single Scenario.env body Scenario.fresh_single
              Scenario.fresh_multi eq_refl eq_refl) as [Hreply _].
  exact Hreply.
Defined.

Section client_to_bridge.


End client_to_bridge.


(** ** The caller-side client *)

Section client_more.

Lemma prompt_source_snoc messages m :
  Spec.prompt_source (messages ++ [m]) =
    if Spec.user_text m then Some m else Spec.prompt_source messages.
Proof.
  unfold Spec.prompt_source. rewrite List.filter_app. simpl.
  destruct (Spec.user_text m).
  - apply last_snoc.
  - by rewrite app_nil_r.
Qed.


End client_more.


(** X23. Whenever [Do] succeeds, the response has the assistant role, the
    stop reason "end of turn", and exactly one content, a text holding the
    result of the bridge's reply; the usage carries the two clock readings
    taken around the exchange. *)
Theorem X23_success_shape
    (s : Claudecode.Service) (net : Claudecode.Net) (ctx : Claudecode.Context)
    (req : Claudecode.Request) (resp : Claudecode.Response) :
  fst (Claudecode.Do s net ctx req) = inr resp →
  Claudecode.RespRole resp = Claudecode.MessageRoleAssistant
  ∧ Claudecode.RespStopReason resp = Claudecode.StopReasonEndTurn
  ∧ Claudecode.StartTime (Claudecode.RespUsage resp) = Claudecode.clock_start net
  ∧ Claudecode.EndTime (Claudecode.RespUsage resp) = Claudecode.clock_end net
  ∧ ∃ raw wire,
      Claudecode.round_trip net (Closed.wire_request s ctx req)
        = Claudecode.Received 200 raw
      ∧ Claudecode.unmarshal net raw = Some wire
      ∧ Claudecode.RespContent resp
        = [ {| Claudecode.Type_ := Claudecode.ContentTypeText;
               Claudecode.Text := Claudecode.Result wire |} ].
Proof.
  intros Hok.
  destruct (Do_success_inv _ _ _ _ _ Hok)
    as (r & raw & wire & Hsent & Hrt & Hjson & Herr & ->).
  assert (r ∈ snd (Claudecode.Do s net ctx req)) as Hr.
  { rewrite Hsent. by apply list_elem_of_singleton. }
  apply Do_requests in Hr as [_ ->].
  repeat split; eauto.
Qed.

(** The scenario of the specification. *)
Lemma X23_witness :
  ∃ resp,
    fst (Claudecode.Do Scenario.service
           (Scenario.net_answering Scenario.reply_plain)
           (Scenario.context "c1") Scenario.history_hello) = inr resp
    ∧ Claudecode.RespStopReason resp = Claudecode.StopReasonEndTurn.
Proof.
  eexists. split; [reflexivity|].
  destruct (X23_success_shape Scenario.service
              (Scenario.net_answering Scenario.reply_plain)
              (Scenario.context "c1") Scenario.history_hello _ eq_refl)
    as (_ & Hstop & _).
  exact Hstop.
Defined.

(** X24. The prompt under growth of the history: appending a human message
    with a non-empty text makes that text the prompt; appending any other
    message (an assistant message, or a human message without text) leaves
    the prompt as it was. A non-empty prompt is always the text of a text
    content of a human message of the history. *)
Theorem X24_prompt_append_and_origin
    (messages : list Claudecode.Message) (m : Claudecode.Message) :
  Claudecode.extractLastUserMessage (messages ++ [m]) =
    (if Spec.user_text m then Spec.text_of m
     else Claudecode.extractLastUserMessage messages)
  ∧ (Claudecode.extractLastUserMessage messages ≠ "" →
     ∃ source c,
       source ∈ messages
       ∧ Claudecode.Role source = Claudecode.MessageRoleUser
       ∧ c ∈ Claudecode.Contents source
       ∧ Claudecode.Type_ c = Claudecode.ContentTypeText
       ∧ Claudecode.Text c = Claudecode.extractLastUserMessage messages).
Proof.
  split.
  - rewrite !extract_prompt_source, prompt_source_snoc.
    by destruct (Spec.user_text m).
  - rewrite extract_prompt_source.
    destruct (Spec.prompt_source messages) as [source|] eqn:E; [|done].
    intros _.
    pose proof (prompt_source_user_text _ _ E) as Hut.
    unfold Spec.prompt_source in E. apply last_Some_elem_of in E.
    apply list_elem_of_In, filter_In in E as [Hin _].
    unfold Spec.user_text in Hut. apply andb_true_iff in Hut as [Hrole Hex].
    rewrite existsb_find in Hex. unfold Spec.text_of.
    destruct (List.find Claudecode.is_text (Claudecode.Contents source))
      as [c|] eqn:Hfind; [|discriminate].
    apply find_some in Hfind as [Hc Htext].
    exists source, c. repeat split.
    + by apply list_elem_of_In.
    + by destruct (Claudecode.Role source).
    + by apply list_elem_of_In.
    + unfold Claudecode.is_text in Htext.
      by destruct (Claudecode.Type_ c).
Qed.

Section end_to_end.


End end_to_end.



(** ** Build information *)

Section version.

Lemma settings_last_wins {A} (f : Version.Info → A)
    (g : Version.Setting → option A) :
  (∀ st info, f (Version.apply_setting info st) = default (f info) (g st)) →
  ∀ settings info,
    f (fold_left Version.apply_setting settings info)
    = default (f info) (last (omap g settings)).
Proof.
  intros Hstep settings. induction settings as [|st settings IH]; intros info;
    [reflexivity|].
  cbn [fold_left]. rewrite IH, Hstep.
  change (omap g (st :: settings))
    with (match g st with
          | Some a => a :: omap g settings
          | None => omap g settings
          end).
  destruct (g st) as [a|]; [|reflexivity].
  rewrite last_cons. by destruct (last (omap g settings)).
Qed.

(** Case analysis on the key of a build setting, as the [switch] does. *)
Ltac setting_cases st :=
  unfold Version.apply_setting;
  destruct (String.eqb_spec (Version.Key st) "vcs.revision") as [Hk|?];
    [rewrite ?Hk; reflexivity|];
  destruct (String.eqb_spec (Version.Key st) "vcs.time") as [Hk|?];
    [rewrite ?Hk; reflexivity|];
  destruct (String.eqb_spec (Version.Key st) "vcs.modified") as [Hk|?];
    rewrite ?Hk; reflexivity.

Lemma apply_settings_fields settings info :
  let out := fold_left Version.apply_setting settings info in
  Version.InfoVersion out = Version.InfoVersion info
  ∧ Version.InfoTag out = Version.InfoTag info
  ∧ Version.Commit out
    = default (Version.Commit info) (Notions.last_setting "vcs.revision" settings)
  ∧ Version.CommitTime out
    = default (Version.CommitTime info) (Notions.last_setting "vcs.time" settings)
  ∧ Version.Modified out
    = default (Version.Modified info) (Notions.last_modified settings).
Proof.
  cbv zeta. split; [|split; [|split; [|split]]].
  - revert info. induction settings as [|st settings IH]; intros info;
      [reflexivity|].
    cbn [fold_left]. rewrite IH. setting_cases st.
  - revert info. induction settings as [|st settings IH]; intros info;
      [reflexivity|].
    cbn [fold_left]. rewrite IH. setting_cases st.
  - apply (settings_last_wins Version.Commit). intros st info'.
    setting_cases st.
  - apply (settings_last_wins Version.CommitTime). intros st info'.
    setting_cases st.
  - apply (settings_last_wins Version.Modified). intros st info'.
    setting_cases st.
Qed.

End version.

(** X26. Build information. The version and tag are always the package
    variables. When the build settings carry a non-empty [vcs.revision],
    commit, commit time and the modified flag come from the settings (the
    last value of each key; the flag is true only for the value ["true"])
    and the embedded file is ignored. Otherwise, if the embedded file can be
    read and decoded, all three come from it, replacing whatever the settings
    said about time and modification; if not, the commit stays empty. *)
Theorem X26_GetInfo
    (version tag : string) (buildInfo : option (list Version.Setting))
    (embedded : option string) (decode : string → option Version.BuildJSON) :
  let info := Version.GetInfo version tag buildInfo embedded decode in
  let settings := default [] buildInfo in
  let revision := default "" (Notions.last_setting "vcs.revision" settings) in
  let time := default "" (Notions.last_setting "vcs.time" settings) in
  let modified := default false (Notions.last_modified settings) in
  Version.InfoVersion info = version
  ∧ Version.InfoTag info = tag
  ∧ (Version.Commit info, Version.CommitTime info, Version.Modified info)
    = if String.eqb revision "" 
      then match embedded ≫= decode with
           | Some j => (Version.JCommit j, Version.JCommitTime j,
                        Version.JModified j)
           | None => ("", time, modified)
           end
      else (revision, time, modified).
Proof.
  cbv zeta. unfold Version.GetInfo.
  set (info0 := {| Version.InfoVersion := version; Version.InfoTag := tag;
                   Version.Commit := ""; Version.CommitTime := "";
                   Version.Modified := false |}).
  assert (match buildInfo with
          | Some settings => fold_left Version.apply_setting settings info0
          | None => info0
          end = fold_left Version.apply_setting (default [] buildInfo) info0)
    as -> by (by destruct buildInfo).
  destruct (apply_settings_fields (default [] buildInfo) info0)
    as (H1 & H2 & H3 & H4 & H5).
  cbn [info0 Version.InfoVersion Version.InfoTag Version.Commit
       Version.CommitTime Version.Modified] in H1, H2, H3, H4, H5.
  set (out := fold_left Version.apply_setting (default [] buildInfo) info0) in *.
  rewrite <- H3, <- H4, <- H5.
  destruct (String.eqb_spec (Version.Commit out) "") as [He|Hne].
  - destruct embedded as [data|]; simpl.
    + destruct (decode data) as [j|]; simpl; [done|]. by rewrite He.
    + by rewrite He.
  - done.
Qed.
